(** * Great-circle navigation and wind-triangle calculators

    A shallow embedding of [magn_dgr_cal.py] (class
    [MagneticCourseCalculator]) and of
    [validation_tools/flight_time_cal.py] (function
    [calculate_flight_time]).

    Python floats are read as real numbers: every arithmetic operation
    and every function of the [math] module is the exact one, and the
    exceptions kept are those that exact arithmetic can raise
    ([ValueError] for a math domain error, [ZeroDivisionError] for a
    division by zero).  Infinities, NaN, signed zeros and binary64
    rounding are outside the model.

    The two places of [calculate_flight_time] that use nothing but
    correctly rounded operations, the test of line 42 and the flight
    time of lines 52-55, are embedded a second time in binary64
    ([Binary64]), where the rounding that the reals hide can be
    computed. *)

From Stdlib Require Import Reals Lra Lia ZArith String List.
From Stdlib Require Floats.
Import ListNotations.

#[local] Open Scope R_scope.

(** ** The Python runtime the scripts rely on *)

Module Py.

(** The two exception classes the arithmetic of the scripts can raise. *)
Inductive exn : Set :=
| ValueError          (* "math domain error" *)
| ZeroDivisionError.  (* "float division by zero" *)

(** One call of [print]. *)
Inductive line : Type :=
| Text (s : string)                  (* print("...") *)
| Num (x : R)                        (* print(x) *)
| Err (s : string) (e : exn)         (* print(f"...: {e}") *)
| Field (label : string) (x : R)     (* print(f"label: {x:.2f}") *)
| FieldZ (label : string) (n : Z).   (* print(f"label: {n} ...") *)

(** What a statement does next: fall through with a value, leave the
    enclosing function with [return], or raise. *)
Inductive ctl (V A : Type) : Type :=
| Next (a : A)
| Return (v : V)
| Raise (e : exn).

Arguments Next {V A} a.
Arguments Return {V A} v.
Arguments Raise {V A} e.

(** A block of statements inside a function returning [V]: the lines it
    printed and how it ended. *)
Definition M (V A : Type) : Type := (list line * ctl V A)%type.

Definition ret {V A} (a : A) : M V A := ([], Next a).

Definition bind {V A B} (m : M V A) (f : A -> M V B) : M V B :=
  match m with
  | (o, Next a) => let (o', r) := f a in (o ++ o', r)
  | (o, Return v) => (o, Return v)
  | (o, Raise e) => (o, Raise e)
  end.

Definition print {V} (l : line) : M V unit := ([l], Next tt).
Definition return_ {V A} (v : V) : M V A := ([], Return v).
Definition raise {V A} (e : exn) : M V A := ([], Raise e).

(** [try: body  except <classes>: handler]. *)
Definition try_except {V A} (body : M V A) (catches : exn -> bool)
    (handler : exn -> M V A) : M V A :=
  match body with
  | (o, Raise e) =>
      if catches e then let (o', r) := handler e in (o ++ o', r)
      else (o, Raise e)
  | other => other
  end.

Definition except_Exception (e : exn) : bool := true.
Definition except_ValueError (e : exn) : bool :=
  match e with ValueError => true | ZeroDivisionError => false end.
Definition except_ZeroDivisionError (e : exn) : bool :=
  match e with ZeroDivisionError => true | ValueError => false end.

(** What the caller of a function sees: the printed lines, and either
    the returned value or the exception that escaped. *)
Definition outcome (V : Type) : Type := (list line * (exn + V))%type.

(** A function body whose last expression is its value. *)
Definition def {V} (body : M V V) : outcome V :=
  match body with
  | (o, Next v) => (o, inr v)
  | (o, Return v) => (o, inr v)
  | (o, Raise e) => (o, inl e)
  end.

(** A call from inside another function. *)
Definition call {V W} (r : outcome W) : M V W :=
  match r with
  | (o, inr w) => (o, Next w)
  | (o, inl e) => (o, Raise e)
  end.

(** The character a leading backslash-n stands for. *)
Definition newline : string := String (Ascii.ascii_of_nat 10) EmptyString.

(** [x / y] on floats. *)
Definition truediv {V} (x y : R) : M V R :=
  if Req_dec_T y 0 then raise ZeroDivisionError else ret (x / y).

(** [x % y] on floats, for a divisor that is not zero: the result has
    the sign of the divisor. *)
Definition fmod (x y : R) : R := x - y * IZR (Zfloor (x / y)).

(** Rounding to the nearest integer, ties to the even one. *)
Definition round_half_even (x : R) : Z :=
  let f := Zfloor x in
  let d := x - IZR f in
  if Rlt_dec d (1 / 2) then f
  else if Rlt_dec (1 / 2) d then (f + 1)%Z
  else if Z.even f then f else (f + 1)%Z.

(** [round(x, ndigits)]. *)
Definition round (x : R) (ndigits : nat) : R :=
  IZR (round_half_even (x * 10 ^ ndigits)) / 10 ^ ndigits.

(** The [math] module. *)
Module math.

Definition pi : R := PI.
Definition sin (x : R) : R := Rtrigo_def.sin x.
Definition cos (x : R) : R := Rtrigo_def.cos x.
Definition radians (x : R) : R := x * (PI / 180).
Definition degrees (x : R) : R := x * (180 / PI).

Definition sqrt {V} (x : R) : M V R :=
  if Rlt_dec x 0 then raise ValueError else ret (R_sqrt.sqrt x).

Definition asin {V} (x : R) : M V R :=
  if Rlt_dec x (-1) then raise ValueError
  else if Rlt_dec 1 x then raise ValueError
  else ret (Ratan.asin x).

(** [atan2(y, x)]: the angle of the point [(x, y)], in (-pi, pi], and 0
    at the origin. *)
Definition atan2 (y x : R) : R :=
  if Rlt_dec 0 x then atan (y / x)
  else if Rlt_dec x 0 then
    if Rle_dec 0 y then atan (y / x) + PI else atan (y / x) - PI
  else if Rlt_dec 0 y then PI / 2
  else if Rlt_dec y 0 then - (PI / 2)
  else 0.

Definition ceil (x : R) : Z := Zceil x.

End math.

End Py.

Import Py.

Declare Scope py_scope.
Delimit Scope py_scope with py.
Notation "x <- c1 ;; c2" := (bind c1 (fun x => c2))
  (at level 61, c1 at next level, right associativity) : py_scope.
Notation "c1 ;; c2" := (bind c1 (fun _ => c2))
  (at level 61, right associativity) : py_scope.
#[local] Open Scope py_scope.

(** ** magn_dgr_cal.py *)

Module MagneticCourseCalculator.

(** Attributes set by [__init__]. *)
Definition MAGNETIC_VARIATION : R := - (41 / 10).
Definition EARTH_RADIUS_NM : R := 344389849 / 100000.
Definition DEG_TO_RAD : R := math.pi / 180.
Definition RAD_TO_DEG : R := 180 / math.pi.

Definition calculate_true_course (lat1 lon1 lat2 lon2 : R) : outcome R :=
  def (try_except
    (let phi1 := lat1 * DEG_TO_RAD in
     let phi2 := lat2 * DEG_TO_RAD in
     let delta_lambda := (lon2 - lon1) * DEG_TO_RAD in
     let y := math.sin delta_lambda * math.cos phi2 in
     let x := math.cos phi1 * math.sin phi2 -
              math.sin phi1 * math.cos phi2 * math.cos delta_lambda in
     let bearing_rad := math.atan2 y x in
     let bearing_deg := bearing_rad * RAD_TO_DEG in
     let true_course := fmod (bearing_deg + 360) 360 in
     ret (round true_course 1))
    except_Exception
    (fun e => print (Err "Error calculating true course" e) ;; ret 0)).

Definition calculate_magnetic_course (lat1 lon1 lat2 lon2 : R)
    : outcome (R * R) :=
  def (true_course <- call (calculate_true_course lat1 lon1 lat2 lon2) ;;
       let magnetic_course := true_course + MAGNETIC_VARIATION in
       let magnetic_course := fmod (magnetic_course + 360) 360 in
       ret (true_course, round magnetic_course 1)).

(** Lines 101-117: the [try] block of [calculate_distance]. *)
Definition distance_try (lat1 lon1 lat2 lon2 : R) : M R R :=
  let phi1 := lat1 * DEG_TO_RAD in
  let phi2 := lat2 * DEG_TO_RAD in
  let delta_phi := (lat2 - lat1) * DEG_TO_RAD in
  let delta_lambda := (lon2 - lon1) * DEG_TO_RAD in
  let a := math.sin (delta_phi / 2) * math.sin (delta_phi / 2) +
           math.cos phi1 * math.cos phi2 *
           math.sin (delta_lambda / 2) * math.sin (delta_lambda / 2) in
  sa <- math.sqrt a ;;
  sb <- math.sqrt (1 - a) ;;
  let c := 2 * math.atan2 sa sb in
  let distance := EARTH_RADIUS_NM * c in
  ret (round distance 1).

(** Lines 119-121: its [except Exception as e] clause. *)
Definition distance_except (e : exn) : M R R :=
  print (Err "Error calculating distance" e) ;; ret 0.

Definition calculate_distance (lat1 lon1 lat2 lon2 : R) : outcome R :=
  def (try_except (distance_try lat1 lon1 lat2 lon2)
                  except_Exception distance_except).

End MagneticCourseCalculator.

(** ** validation_tools/flight_time_cal.py *)

Module FlightTime.

(** The names [calculate_flight_time] binds before it computes: its two
    constants and its four inputs. *)
Record inputs : Type := {
  magnetic_variation : R;
  true_air_speed : R;
  wind_dir : R;
  wind_speed : R;
  mag_course : R;
  distance_nm : R
}.

(** The values written in the script. *)
Definition hardcoded : inputs := {|
  magnetic_variation := 0;
  true_air_speed := 120;
  wind_dir := 180;
  wind_speed := 90;
  mag_course := 86;
  distance_nm := 372 / 10
|}.

Section Blocks.

Variable i : inputs.

Definition true_course : R := mag_course i - magnetic_variation i.
Definition wind_dir_rad : R := math.radians (wind_dir i).
Definition true_course_rad : R := math.radians true_course.

(** Lines 29-37: the wind correction angle, in radians. *)
Definition wca_block : M unit R :=
  try_except
    (ratio <- truediv (wind_speed i) (true_air_speed i) ;;
     wca_rad <- math.asin (ratio * math.sin (wind_dir_rad - true_course_rad)) ;;
     ratio' <- truediv (wind_speed i) (true_air_speed i) ;;
     a <- math.asin ratio' ;;
     print (Num (round a 9)) ;;
     print (Num (round (math.sin (wind_dir_rad - true_course_rad)) 9)) ;;
     print (Num (round (math.degrees wca_rad) 9)) ;;
     ret wca_rad)
    except_ValueError
    (fun _ =>
       print (Text "Invalid input: wind speed too high relative to TAS.") ;;
       return_ tt).

(** Lines 41-49: the ground speed, in exact arithmetic
    ([Binary64.line_42] is the test of line 42 in binary64).  The sine
    by which line 46 divides is exactly 0 here whenever the wind blows
    along the course; in binary64 it is so only where the two
    directions are the same float or there is no wind, and a wind dead
    astern leaves a rounding residue to divide by. *)
Definition ground_speed_block (wca_rad : R) : M unit R :=
  if Req_dec_T (round (math.degrees true_course_rad) 1) (round (wind_dir i) 1)
  then ret (true_air_speed i - wind_speed i)
  else
    try_except
      (truediv
         (wind_speed i * math.sin (wind_dir_rad - true_course_rad - wca_rad))
         (math.sin wca_rad))
      except_ZeroDivisionError
      (fun _ =>
         print (Text "Ground speed calculation failed due to angle conditions.") ;;
         return_ tt).

(** Lines 51-55: the flight time, in minutes, in exact arithmetic
    ([Binary64.flight_time] is the same block in binary64). *)
Definition flight_time_block (ground_speed : R) : M unit Z :=
  if Rle_dec ground_speed 0
  then print (Text "Error: Ground speed too low or negative.") ;; return_ tt
  else
    q <- truediv (distance_nm i) ground_speed ;;
    ret (math.ceil (q * 60)).

Definition calculate_flight_time_on : outcome unit :=
  def (wca_rad <- wca_block ;;
       let wca_deg := math.degrees wca_rad in
       ground_speed <- ground_speed_block wca_rad ;;
       flight_time <- flight_time_block ground_speed ;;
       print (Text (newline ++ "✅ Results:")) ;;
       print (Field "WCA" wca_deg) ;;
       print (Field "Ground Speed" ground_speed) ;;
       print (Field "True Course" true_course) ;;
       print (FieldZ "Estimated Flight Time" flight_time) ;;
       ret tt).

End Blocks.

(** The script's function: no parameter, the inputs are the hardcoded
    ones. *)
Definition calculate_flight_time : outcome unit :=
  calculate_flight_time_on hardcoded.

End FlightTime.

(** ** validation_tools/flight_time_cal.py in binary64 *)

Module Binary64.

Import PrimFloat FloatOps SpecFloat.

#[local] Open Scope Z_scope.

(** The float of an integer below 2^53 in absolute value. *)
Definition of_Z (n : Z) : float :=
  if n <? 0 then opp (of_uint63 (Uint63.of_Z (- n)))
  else of_uint63 (Uint63.of_Z n).


(** [math.pi], the float 0x400921FB54442D18. *)
Definition pi : float := div (of_Z 7074237752028440) (of_Z 2251799813685248).

(** [math.radians] and [math.degrees]: one multiplication by a constant
    that is itself a rounded quotient. *)
Definition degToRad : float := div pi (of_Z 180).
Definition radToDeg : float := div (of_Z 180) pi.
Definition radians (x : float) : float := mul x degToRad.
Definition degrees (x : float) : float := mul x radToDeg.

(** The integer nearest to [num / den], ties to the even one, for
    [num >= 0] and [den > 0]. *)
Definition nearest_even (num den : Z) : Z :=
  let q := num / den in
  let r := num mod den in
  if 2 * r <? den then q
  else if den <? 2 * r then q + 1
  else if Z.even q then q else q + 1.

(** [round(x, ndigits)] of a finite float, as the number [k] of units
    of [10^-ndigits] of its result: the exact value of [x] is rounded
    to that many decimals, ties to even.  Not defined here on
    infinities and NaN. *)
Definition round (x : float) (ndigits : nat) : option Z :=
  match Prim2SF x with
  | S754_zero _ => Some 0
  | S754_finite s m e =>
      let scaled := Z.pos m * 10 ^ Z.of_nat ndigits in
      let k := if 0 <=? e then scaled * 2 ^ e
               else nearest_even scaled (2 ^ (- e)) in
      Some (if s then - k else k)
  | S754_infinity _ => None
  | S754_nan => None
  end.

(** [math.ceil(x)]: the least integer not below the exact value of [x];
    [None] where it raises ([OverflowError] on an infinity,
    [ValueError] on NaN). *)
Definition ceil (x : float) : option Z :=
  match Prim2SF x with
  | S754_zero _ => Some 0
  | S754_finite s m e =>
      if 0 <=? e then Some ((if s then -1 else 1) * Z.pos m * 2 ^ e)
      else
        let den := 2 ^ (- e) in
        Some (if s then - (Z.pos m / den) else (Z.pos m + den - 1) / den)
  | S754_infinity _ => None
  | S754_nan => None
  end.


(** How lines 52-55 end. *)
Inductive flight_time_result : Set :=
| TooSlow              (* the message of line 53, and [return] *)
| Minutes (n : Z)      (* [flight_time] *)
| CeilRaises.          (* [math.ceil] raises *)

(** Lines 52-55. *)
Definition flight_time (distance_nm ground_speed : float)
    : flight_time_result :=
  if leb ground_speed zero then TooSlow
  else
    match ceil (mul (div distance_nm ground_speed) (of_Z 60)) with
    | Some n => Minutes n
    | None => CeilRaises
    end.



End Binary64.

(** ** Vocabulary of the properties *)

Module Props.

Import MagneticCourseCalculator.

(** The bearing of [calculate_true_course] before it is normalised
    (lines 40-51), in degrees. *)
Definition bearing_deg (lat1 lon1 lat2 lon2 : R) : R :=
  let phi1 := lat1 * DEG_TO_RAD in
  let phi2 := lat2 * DEG_TO_RAD in
  let delta_lambda := (lon2 - lon1) * DEG_TO_RAD in
  let y := math.sin delta_lambda * math.cos phi2 in
  let x := math.cos phi1 * math.sin phi2 -
           math.sin phi1 * math.cos phi2 * math.cos delta_lambda in
  math.atan2 y x * RAD_TO_DEG.

(** The haversine intermediate [a] of [calculate_distance]
    (lines 102-110). *)
Definition haversine_a (lat1 lon1 lat2 lon2 : R) : R :=
  let phi1 := lat1 * DEG_TO_RAD in
  let phi2 := lat2 * DEG_TO_RAD in
  let delta_phi := (lat2 - lat1) * DEG_TO_RAD in
  let delta_lambda := (lon2 - lon1) * DEG_TO_RAD in
  math.sin (delta_phi / 2) * math.sin (delta_phi / 2) +
  math.cos phi1 * math.cos phi2 *
  math.sin (delta_lambda / 2) * math.sin (delta_lambda / 2).

(** A coordinate the input collector [get_coordinate_input] lets
    through (line 139). *)
Definition accepted (coord_value : R) : Prop := Rabs coord_value <= 180.

(** A course in the half-open interval [0, 360). *)
Definition normalized (course : R) : Prop := 0 <= course < 360.

(** Two courses that differ by 180 degrees modulo 360, up to [tol]. *)
Definition opposite (tol c1 c2 : R) : Prop :=
  exists k : Z, Rabs (c2 - c1 - 180 - 360 * IZR k) <= tol.

(** The argument [calculate_flight_time] hands to [asin] on line 30. *)
Definition asin_arg (i : FlightTime.inputs) : R :=
  FlightTime.wind_speed i / FlightTime.true_air_speed i *
  sin (math.radians (FlightTime.wind_dir i) -
       math.radians (FlightTime.true_course i)).

(** The test of line 42: the true course, taken to radians and back to
    degrees, and the wind direction agree once rounded to one decimal. *)
Definition aligned (i : FlightTime.inputs) : Prop :=
  round (math.degrees (FlightTime.true_course_rad i)) 1 =
  round (FlightTime.wind_dir i) 1.

(** Sample inputs: the script's values with a 200 kt wind across a
    course of 90, with no wind, and with the wind on the nose. *)
Definition gale : FlightTime.inputs := {|
  FlightTime.magnetic_variation := 0;
  FlightTime.true_air_speed := 120;
  FlightTime.wind_dir := 180;
  FlightTime.wind_speed := 200;
  FlightTime.mag_course := 90;
  FlightTime.distance_nm := 372 / 10
|}.

Definition calm : FlightTime.inputs := {|
  FlightTime.magnetic_variation := 0;
  FlightTime.true_air_speed := 120;
  FlightTime.wind_dir := 180;
  FlightTime.wind_speed := 0;
  FlightTime.mag_course := 86;
  FlightTime.distance_nm := 372 / 10
|}.

Definition headwind : FlightTime.inputs := {|
  FlightTime.magnetic_variation := 0;
  FlightTime.true_air_speed := 120;
  FlightTime.wind_dir := 86;
  FlightTime.wind_speed := 90;
  FlightTime.mag_course := 86;
  FlightTime.distance_nm := 372 / 10
|}.



(** The function returned [v] and printed nothing. *)
Definition returns {V} (r : outcome V) (v : V) : Prop := r = ([], inr v).

End Props.

Import Props.

(** ** Further vocabulary *)

Module Terms.

Import FlightTime.

(** The ratio printed (through [asin]) on line 31. *)
Definition ratio (i : inputs) : R := wind_speed i / true_air_speed i.

(** The angle from the true course to the wind direction, in radians. *)
Definition delta (i : inputs) : R :=
  math.radians (wind_dir i) - math.radians (true_course i).

(** The three messages of [calculate_flight_time] (lines 36, 48, 53). *)
Definition too_strong : line :=
  Text "Invalid input: wind speed too high relative to TAS.".
Definition no_ground_speed : line :=
  Text "Ground speed calculation failed due to angle conditions.".
Definition too_slow : line :=
  Text "Error: Ground speed too low or negative.".

(** Sample inputs: a 150 kt wind on the nose of a 120 kt aircraft. *)
Definition overspeed : inputs := {|
  magnetic_variation := 0;
  true_air_speed := 120;
  wind_dir := 86;
  wind_speed := 150;
  mag_course := 86;
  distance_nm := 372 / 10
|}.

End Terms.

Import Terms.

(** ** magn_dgr_cal.py: the interactive layer *)

Module Console.

Import MagneticCourseCalculator.

(** What the terminal hands to one call of [input]: a typed line, or an
    interrupt (Ctrl-C).  The end of the list is the end of the input. *)
Inductive event : Type :=
| Typed (s : string)
| CtrlC.

(** The exceptions that can travel through the interactive functions. *)
Inductive error : Type :=
| EOFError                 (* [input] at the end of the input *)
| KeyboardInterrupt        (* [input] interrupted *)
| PyExn (e : exn).         (* an exception of the calculator *)

(** What is written to the terminal. *)
Inductive out : Type :=
| Say (l : line)                         (* print(...) *)
| Ask (prompt_text : string)             (* the prompt of an [input] *)
| Point (label : string) (lat lon : R)   (* print(f"From: {lat:8.4f}, {lon:9.4f}") *)
| Crash (e : error).                     (* print(f"An error occurred: {e}") *)

(** How a piece of interactive code ends: normally, or with an
    exception, each with the input that is left; by [exit(code)]; or,
    for [main_loop] only, because the recursion budget of the model ran
    out. *)
Inductive result (A : Type) : Type :=
| Done (a : A) (stdin : list event)
| Exit (code : Z)
| Fail (e : error) (stdin : list event)
| Unfinished.

Arguments Done {A} a stdin.
Arguments Exit {A} code.
Arguments Fail {A} e stdin.
Arguments Unfinished {A}.

Definition io (A : Type) : Type := list event -> list out * result A.

Definition io_ret {A} (a : A) : io A := fun stdin => ([], Done a stdin).

Definition io_bind {A B} (m : io A) (f : A -> io B) : io B :=
  fun stdin =>
    match m stdin with
    | (o, Done a rest) => let (o', r) := f a rest in (o ++ o', r)
    | (o, Exit code) => (o, Exit code)
    | (o, Fail e rest) => (o, Fail e rest)
    | (o, Unfinished) => (o, Unfinished)
    end.

Definition say (s : string) : io unit :=
  fun stdin => ([Say (Text s)], Done tt stdin).

Definition show (o : out) : io unit := fun stdin => ([o], Done tt stdin).

(** [input()] without a prompt. *)
Definition input : io string :=
  fun stdin =>
    match stdin with
    | [] => ([], Fail EOFError [])
    | CtrlC :: rest => ([], Fail KeyboardInterrupt rest)
    | Typed s :: rest => ([], Done s rest)
    end.

(** A call of a method of the calculator. *)
Definition method {V} (r : outcome V) : io V :=
  fun stdin =>
    match r with
    | (o, inr v) => (map Say o, Done v stdin)
    | (o, inl e) => (map Say o, Fail (PyExn e) stdin)
    end.

(** [try: body  except ...: handler e]; [exit] is not an exception a
    handler of [main] catches. *)
Definition io_try {A} (body : io A) (handler : error -> io A) : io A :=
  fun stdin =>
    match body stdin with
    | (o, Fail e rest) => let (o', r) := handler e rest in (o ++ o', r)
    | other => other
    end.

Definition nl : string := String (Ascii.ascii_of_nat 10) EmptyString.

(** [s * n]. *)
Fixpoint string_mul (s : string) (n : nat) : string :=
  match n with
  | O => EmptyString
  | S n' => (s ++ string_mul s n')%string
  end.

(** [answer.lower().startswith('y')]. *)
Definition answers_yes (answer : string) : bool :=
  match answer with
  | String c _ =>
      (String.eqb (String c EmptyString) "y" ||
       String.eqb (String c EmptyString) "Y")%bool
  | EmptyString => false
  end.

Definition goodbye : string := (nl ++ nl ++ "👋 Goodbye!")%string.
Definition invalid_coordinate : string :=
  "⚠️  Invalid coordinate. Please enter a value between -180 and 180.".
Definition invalid_format : string :=
  "⚠️  Invalid format. Please enter coordinates in hh.hhhh format (e.g., 23.9739)".

Section Parser.

(** [float(coord_str)] on the stripped line: the number read, or [None]
    when [float] raises [ValueError].  Only finite numbers are in the
    model: a line that [float] reads as nan or as an infinity has no
    image here. *)
Variable float : string -> option R.

(** Lines 123-149.  The [while True] loop takes one event per turn. *)
Fixpoint get_coordinate_input (prompt_text : string) (stdin : list event)
    : list out * result R :=
  match stdin with
  | [] => ([Ask prompt_text], Fail EOFError [])
  | CtrlC :: _ => ([Ask prompt_text; Say (Text goodbye)], Exit 0)
  | Typed coord_str :: rest =>
      match float coord_str with
      | Some coord_value =>
          if Rlt_dec 180 (Rabs coord_value)
          then
            let (o, r) := get_coordinate_input prompt_text rest in
            (Ask prompt_text :: Say (Text invalid_coordinate) :: o, r)
          else ([Ask prompt_text], Done coord_value rest)
      | None =>
          let (o, r) := get_coordinate_input prompt_text rest in
          (Ask prompt_text :: Say (Text invalid_format) :: o, r)
      end
  end.

(** Lines 155-160 of [main]: the banner. *)
Definition banner : io unit :=
  io_bind (say "🧭 Magnetic Course Degree Calculator") (fun _ =>
  io_bind (say (string_mul "=" 50)) (fun _ =>
  io_bind (say "Calculate magnetic course between two coordinates") (fun _ =>
  io_bind (show (Say (Field "Magnetic Variation" (- (41 / 10))))) (fun _ =>
  io_bind (say "Input format: hh.hhhh (e.g., 23.9739)") (fun _ =>
  say (string_mul "=" 50)))))).

(** Lines 166-173: the four coordinates. *)
Definition read_route : io (R * R * R * R) :=
  io_bind (say (nl ++ "📍 Starting Point (FROM):")) (fun _ =>
  io_bind (get_coordinate_input "  Latitude:  ") (fun lat1 =>
  io_bind (get_coordinate_input "  Longitude: ") (fun lon1 =>
  io_bind (say (nl ++ "📍 Destination Point (TO):")) (fun _ =>
  io_bind (get_coordinate_input "  Latitude:  ") (fun lat2 =>
  io_bind (get_coordinate_input "  Longitude: ") (fun lon2 =>
  io_ret (lat1, lon1, lat2, lon2))))))).

(** Lines 176-190: the computation and the display of its results. *)
Definition show_route (lat1 lon1 lat2 lon2 : R) : io unit :=
  io_bind (method (calculate_magnetic_course lat1 lon1 lat2 lon2)) (fun courses =>
  let (true_course, magnetic_course) := courses in
  io_bind (method (calculate_distance lat1 lon1 lat2 lon2)) (fun distance =>
  io_bind (say (nl ++ string_mul "=" 50)) (fun _ =>
  io_bind (say "📊 CALCULATION RESULTS") (fun _ =>
  io_bind (say (string_mul "=" 50)) (fun _ =>
  io_bind (show (Point "From" lat1 lon1)) (fun _ =>
  io_bind (show (Point "To" lat2 lon2)) (fun _ =>
  io_bind (say (string_mul "-" 50)) (fun _ =>
  io_bind (show (Say (Field "Distance" distance))) (fun _ =>
  io_bind (show (Say (Field "True Course" true_course))) (fun _ =>
  io_bind (show (Say (Field "Magnetic Course" magnetic_course))) (fun _ =>
  io_bind (show (Say (Field "Magnetic Var" MAGNETIC_VARIATION))) (fun _ =>
  say (string_mul "=" 50))))))))))))).

(** Lines 200-203: the two handlers of [main]. *)
Definition main_except (e : error) : io unit :=
  match e with
  | KeyboardInterrupt => say goodbye
  | _ => show (Crash e)
  end.

(** The body of [main], lines 151-203, with the call of [main] by
    itself on line 196 as a parameter. *)
Definition main_body (main_again : io unit) : io unit :=
  io_bind banner (fun _ =>
  io_try
    (io_bind read_route (fun route =>
     let '(lat1, lon1, lat2, lon2) := route in
     io_bind (show_route lat1 lon1 lat2 lon2) (fun _ =>
     io_bind (show (Ask (nl ++ "📝 Calculate another route? (y/n): "))) (fun _ =>
     io_bind input (fun answer =>
     if answers_yes answer
     then io_bind (say nl) (fun _ => main_again)
     else say (nl ++ "👋 Thank you for using Magnetic Course Calculator!"))))))
    main_except).

(** [main], with a budget for its calls of itself.  The depth of
    recursion that Python allows (1000 frames unless it is reset) is not
    part of the model, which follows the source for sessions of fewer
    routes than that. *)
Fixpoint main_loop (fuel : nat) : io unit :=
  match fuel with
  | O => fun _ => ([], Unfinished)
  | S fuel' => main_body (main_loop fuel')
  end.

(** Every call of [main] by itself comes after five events were taken,
    so one more call than there are events is budget enough. *)
Definition main (stdin : list event) : list out * result unit :=
  main_loop (S (length stdin)) stdin.

End Parser.

(** A sample reader of coordinates, for four lines. *)
Definition sample_float (s : string) : option R :=
  if String.eqb s "23.9739" then Some (239739 / 10000)
  else if String.eqb s "120.9820" then Some (120982 / 1000)
  else if String.eqb s "24.1477" then Some (241477 / 10000)
  else if String.eqb s "120.6736" then Some (1206736 / 10000)
  else if String.eqb s "999" then Some 999
  else None.

End Console.

(** ** Vocabulary of the interactive layer *)

Module ConsoleTerms.

Import Console.

(** A line [get_coordinate_input] answers with a warning: one that
    [float] does not read, or a number beyond 180 in absolute value. *)
Definition rejected (float : string -> option R) (e : event) : Prop :=
  match e with
  | Typed s =>
      match float s with
      | Some v => 180 < Rabs v
      | None => True
      end
  | CtrlC => False
  end.

(** The warning that answers a rejected line (lines 140 and 146). *)
Definition warning (float : string -> option R) (e : event) : string :=
  match e with
  | Typed s =>
      match float s with
      | Some _ => invalid_coordinate
      | None => invalid_format
      end
  | CtrlC => EmptyString
  end.

(** The output of the turns of the loop that took the lines [skipped]:
    the prompt, then the warning, for each of them. *)
Definition retries (float : string -> option R) (prompt_text : string)
    (skipped : list event) : list out :=
  flat_map (fun e => [Ask prompt_text; Say (Text (warning float e))]) skipped.

(** The ways an interactive function can end without an exception. *)
Definition ends_well {A} (r : result A) : Prop :=
  match r with
  | Done _ _ => True
  | Exit code => code = 0%Z
  | Fail _ _ => False
  | Unfinished => False
  end.

(** Every pair of coordinates echoed in an output is accepted. *)
Definition points_accepted (o : list out) : Prop :=
  forall (label : string) (lat lon : R),
    In (Point label lat lon) o -> accepted lat /\ accepted lon.

End ConsoleTerms.

(** ** clean_waypoints_proper.py *)

Module Cleaner.

#[local] Open Scope string_scope.
#[local] Open Scope Z_scope.

(** [needle in line], for a [needle] that is not empty. *)
Fixpoint contains (needle line : string) : bool :=
  (String.prefix needle line ||
   match line with
   | EmptyString => false
   | String _ rest => contains needle rest
   end)%bool.

(** [line.count(needle)], for a [needle] that is not empty: the matches
    are counted from the left and do not overlap; [skip] characters of
    the last match are still to be passed. *)
Fixpoint count_from (skip : nat) (needle line : string) : nat :=
  match line with
  | EmptyString => O
  | String _ rest =>
      match skip with
      | S skip' => count_from skip' needle rest
      | O =>
          if String.prefix needle line
          then S (count_from (String.length needle - 1) needle rest)
          else count_from O needle rest
      end
  end.

Definition count (needle line : string) : nat := count_from O needle line.

Definition quote : string := String (Ascii.ascii_of_nat 34) EmptyString.

(** The text [class=<quote>waypoint-item] looked for on line 17. *)
Definition waypoint_item : string := "class=" ++ quote ++ "waypoint-item".

(** The three variables of the loop. *)
Record state : Type := {
  new_lines : list string;
  in_waypoint_item : bool;
  waypoint_item_depth : Z
}.

(** Lines 11-13. *)
Definition initial : state := {|
  new_lines := [];
  in_waypoint_item := false;
  waypoint_item_depth := 0
|}.

(** Lines 15-36: one turn of the loop. *)
Definition step (st : state) (line : string) : state :=
  if contains waypoint_item line then
    {| new_lines := new_lines st;
       in_waypoint_item := true;
       waypoint_item_depth := 1 |}
  else if in_waypoint_item st then
    let depth := waypoint_item_depth st + Z.of_nat (count "<div" line) in
    let depth := depth - Z.of_nat (count "</div>" line) in
    if depth <=? 0 then
      {| new_lines := new_lines st;
         in_waypoint_item := false;
         waypoint_item_depth := 0 |}
    else
      {| new_lines := new_lines st;
         in_waypoint_item := true;
         waypoint_item_depth := depth |}
  else
    {| new_lines := new_lines st ++ [line];
       in_waypoint_item := in_waypoint_item st;
       waypoint_item_depth := waypoint_item_depth st |}.

(** The script, from the lines read to the lines written. *)
Definition clean (lines : list string) : list string :=
  new_lines (fold_left step lines initial).

(** The lines the loop still appends from a given point on, knowing
    only whether it is inside an item and at which depth. *)
Fixpoint scan (inside : bool) (depth : Z) (lines : list string)
    : list string :=
  match lines with
  | [] => []
  | line :: rest =>
      if contains waypoint_item line then scan true 1 rest
      else if inside then
        let depth' :=
          depth + Z.of_nat (count "<div" line)
                - Z.of_nat (count "</div>" line) in
        if depth' <=? 0 then scan false 0 rest else scan true depth' rest
      else line :: scan false depth rest
  end.

(** Sample pages. *)
Definition item_line : string :=
  "<div " ++ waypoint_item ++ quote ++ " data-id=1>".
Definition page : list string :=
  ["<ul>"; item_line; "<span>A</span>"; "</div>"; "</ul>"].
Definition broken_page : list string :=
  ["<ul>"; item_line; "<span>A</span>"; "</ul>"].

(** Some lines of kept text are some of the lines of a text, in their
    order. *)
Inductive kept_from {A : Type} : list A -> list A -> Prop :=
| kept_nil : kept_from [] []
| kept_keep (x : A) (k l : list A) : kept_from k l -> kept_from (x :: k) (x :: l)
| kept_drop (x : A) (k l : list A) : kept_from k l -> kept_from k (x :: l).

(** A line that opens no item, a line with no closing tag, a line that
    neither opens nor closes anything. *)
Definition plain (line : string) : Prop := contains waypoint_item line = false.
Definition unclosing (line : string) : Prop := count "</div>" line = O.
Definition inert (line : string) : Prop :=
  plain line /\ count "<div" line = O /\ count "</div>" line = O.

End Cleaner.

(** ** Facts about the runtime *)

Section Rounding.

Lemma round_half_even_near (x : R) (n : Z) :
  IZR n - 1 / 2 < x < IZR n + 1 / 2 -> round_half_even x = n.
Proof.
  intros [Hlo Hhi]. unfold round_half_even.
  destruct (Zfloor_bound x) as [Hf1 Hf2].
  destruct (Rlt_dec (x - IZR (Zfloor x)) (1 / 2)) as [Hd|Hd].
  - apply Zfloor_eq. split.
    + assert (Hz : (Zfloor x < n + 1)%Z).
      { apply lt_IZR. rewrite plus_IZR. lra. }
      assert (Hz2 : (n - 1 < Zfloor x)%Z).
      { apply lt_IZR. rewrite minus_IZR. lra. }
      assert (Zfloor x = n) by lia. subst n. lra.
    + assert (Hz : (n - 1 < Zfloor x)%Z).
      { apply lt_IZR. rewrite minus_IZR. lra. }
      assert (Hz2 : (Zfloor x < n + 1)%Z).
      { apply lt_IZR. rewrite plus_IZR. lra. }
      assert (Zfloor x = n) by lia. subst n. lra.
  - assert (Hz : (n - 2 < Zfloor x)%Z).
    { apply lt_IZR. rewrite minus_IZR. lra. }
    assert (Hz2 : (Zfloor x < n)%Z).
    { apply lt_IZR. lra. }
    assert (Hn : n = (Zfloor x + 1)%Z) by lia.
    destruct (Rlt_dec (1 / 2) (x - IZR (Zfloor x))) as [Hd'|Hd']; [lia|].
    exfalso. rewrite Hn, plus_IZR in Hlo. lra.
Qed.

Lemma round_half_even_IZR (n : Z) : round_half_even (IZR n) = n.
Proof. apply round_half_even_near; lra. Qed.

(** A number with one decimal is its own rounding to one decimal. *)
Lemma round_tenths (k : Z) : round (IZR k / 10) 1 = IZR k / 10.
Proof.
  unfold round. simpl pow.
  replace (IZR k / 10 * (10 * 1)) with (IZR k) by field.
  rewrite round_half_even_IZR. field.
Qed.

Lemma round_near (x : R) (k : Z) :
  IZR k / 10 - 1 / 20 < x < IZR k / 10 + 1 / 20 -> round x 1 = IZR k / 10.
Proof.
  intros H. unfold round. simpl pow.
  rewrite (round_half_even_near (x * (10 * 1)) k) by lra. field.
Qed.

Lemma fmod_small (x y : R) : 0 <= x < y -> fmod x y = x.
Proof.
  intros H. unfold fmod.
  rewrite (Zfloor_eq 0 (x / y)).
  - lra.
  - assert (0 < y) by lra. split.
    + apply Rmult_le_pos; [lra|]. left. now apply Rinv_0_lt_compat.
    + apply Rmult_lt_reg_r with y; [assumption|].
      unfold Rdiv. rewrite Rmult_assoc, Rinv_l by lra. lra.
Qed.

Lemma fmod_shift (x y : R) : 0 < y -> y <= x < 2 * y -> fmod x y = x - y.
Proof.
  intros Hy H. unfold fmod.
  rewrite (Zfloor_eq 1 (x / y)).
  - lra.
  - split.
    + apply Rmult_le_reg_r with y; [assumption|].
      unfold Rdiv. rewrite Rmult_assoc, Rinv_l by lra. lra.
    + apply Rmult_lt_reg_r with y; [assumption|].
      unfold Rdiv. rewrite Rmult_assoc, Rinv_l by lra. lra.
Qed.

Lemma fmod_range (x y : R) : 0 < y -> 0 <= fmod x y < y.
Proof.
  intros Hy. unfold fmod.
  destruct (Zfloor_bound (x / y)) as [H1 H2].
  assert (Hx : x = x / y * y) by (field; lra).
  split.
  - apply Rmult_le_compat_r with (r := y) in H1; [|lra]. lra.
  - apply Rmult_lt_compat_r with (r := y) in H2; [|lra]. lra.
Qed.

End Rounding.

Section Atan2.

Lemma atan2_origin : math.atan2 0 0 = 0.
Proof.
  unfold math.atan2.
  destruct (Rlt_dec 0 0); [lra|]. reflexivity.
Qed.

Lemma atan2_pos_x (y x : R) : 0 < x -> math.atan2 y x = atan (y / x).
Proof.
  intros H. unfold math.atan2. destruct (Rlt_dec 0 x); [reflexivity|lra].
Qed.

Lemma atan2_north (x : R) : 0 < x -> math.atan2 0 x = 0.
Proof.
  intros H. rewrite atan2_pos_x by assumption.
  unfold Rdiv. rewrite Rmult_0_l. apply atan_0.
Qed.

Lemma atan2_south (x : R) : x < 0 -> math.atan2 0 x = PI.
Proof.
  intros H. unfold math.atan2.
  destruct (Rlt_dec 0 x); [lra|].
  destruct (Rlt_dec x 0); [|lra].
  destruct (Rle_dec 0 0); [|lra].
  unfold Rdiv. rewrite Rmult_0_l, atan_0. lra.
Qed.

Lemma atan2_west (y : R) : y < 0 -> math.atan2 y 0 = - (PI / 2).
Proof.
  intros H. unfold math.atan2.
  destruct (Rlt_dec 0 0); [lra|].
  destruct (Rlt_dec 0 y); [lra|].
  destruct (Rlt_dec y 0); [reflexivity|lra].
Qed.

Lemma atan2_range (y x : R) : - PI < math.atan2 y x <= PI.
Proof.
  pose proof PI_RGT_0 as Hpi.
  unfold math.atan2.
  destruct (Rlt_dec 0 x) as [Hx|Hx].
  - pose proof (atan_bound (y / x)). lra.
  - destruct (Rlt_dec x 0) as [Hx'|Hx'].
    + destruct (Rle_dec 0 y) as [Hy|Hy].
      * assert (atan (y / x) <= 0).
        { rewrite <- atan_0. destruct Hy as [Hy|Hy].
          - left. apply atan_increasing.
            replace (y / x) with (- (y * / (- x))) by (field; lra).
            assert (0 < y * / (- x)); [|lra].
            apply Rmult_lt_0_compat; [lra|].
            apply Rinv_0_lt_compat. lra.
          - subst y. unfold Rdiv. rewrite Rmult_0_l. lra. }
        pose proof (atan_bound (y / x)). lra.
      * assert (0 < atan (y / x)).
        { rewrite <- atan_0. apply atan_increasing.
          replace (y / x) with ((- y) * / (- x)) by (field; lra).
          apply Rmult_lt_0_compat; [lra|].
          apply Rinv_0_lt_compat. lra. }
        pose proof (atan_bound (y / x)). lra.
    + destruct (Rlt_dec 0 y); [lra|].
      destruct (Rlt_dec y 0); lra.
Qed.

End Atan2.

(** ** Statements and blocks *)

Section Monad.

Context {V A B : Type}.

Lemma bind_ret (a : A) (f : A -> M V B) : bind (ret a) f = f a.
Proof. unfold bind, ret. destruct (f a) as [o r]. reflexivity. Qed.

Lemma bind_raise (e : exn) (f : A -> M V B) : bind (raise e) f = raise e.
Proof. reflexivity. Qed.

Lemma bind_print (l : line) (o : list line) (r : ctl V B) (f : unit -> M V B) :
  f tt = (o, r) -> bind (print l) f = (l :: o, r).
Proof. intros H. unfold bind, print. now rewrite H. Qed.

End Monad.

Lemma truediv_ok {V} (x y : R) : y <> 0 -> @truediv V x y = ret (x / y).
Proof.
  intros H. unfold truediv. destruct (Req_dec_T y 0); [contradiction|reflexivity].
Qed.

Lemma truediv_zero {V} (x : R) : @truediv V x 0 = raise ZeroDivisionError.
Proof.
  unfold truediv. destruct (Req_dec_T 0 0); [reflexivity|contradiction].
Qed.

Lemma asin_ok {V} (x : R) : -1 <= x <= 1 -> @math.asin V x = ret (asin x).
Proof.
  intros [H1 H2]. unfold math.asin.
  destruct (Rlt_dec x (-1)); [lra|]. destruct (Rlt_dec 1 x); [lra|reflexivity].
Qed.

Lemma asin_domain_error {V} (x : R) :
  x < -1 \/ 1 < x -> @math.asin V x = raise ValueError.
Proof.
  intros H. unfold math.asin.
  destruct (Rlt_dec x (-1)); [reflexivity|].
  destruct (Rlt_dec 1 x); [reflexivity|lra].
Qed.

Lemma degrees_radians (x : R) : math.degrees (math.radians x) = x.
Proof.
  unfold math.degrees, math.radians. pose proof PI_RGT_0. field. lra.
Qed.

(** ** The true course *)

Section TrueCourse.

Import MagneticCourseCalculator.

Lemma calculate_true_course_eq (lat1 lon1 lat2 lon2 : R) :
  calculate_true_course lat1 lon1 lat2 lon2 =
  ([], inr (round (fmod (bearing_deg lat1 lon1 lat2 lon2 + 360) 360) 1)).
Proof. reflexivity. Qed.

Lemma deg_to_rad_pos : 0 < DEG_TO_RAD.
Proof.
  unfold DEG_TO_RAD, math.pi. pose proof PI_RGT_0.
  apply Rmult_lt_0_compat; [lra|]. apply Rinv_0_lt_compat. lra.
Qed.

Lemma rad_to_deg_pos : 0 < RAD_TO_DEG.
Proof.
  unfold RAD_TO_DEG, math.pi. pose proof PI_RGT_0.
  apply Rmult_lt_0_compat; [lra|]. now apply Rinv_0_lt_compat.
Qed.

Lemma deg_rad_inv : DEG_TO_RAD * RAD_TO_DEG = 1.
Proof.
  unfold DEG_TO_RAD, RAD_TO_DEG, math.pi. pose proof PI_RGT_0. field. lra.
Qed.

Lemma round_0 : round 0 1 = 0.
Proof.
  replace 0 with (IZR 0 / 10) at 1 by (simpl; lra).
  rewrite round_tenths. simpl. lra.
Qed.

Lemma bearing_deg_same_point (lat lon : R) : bearing_deg lat lon lat lon = 0.
Proof.
  unfold bearing_deg, math.sin, math.cos.
  replace ((lon - lon) * DEG_TO_RAD) with 0 by ring.
  rewrite sin_0, cos_0.
  replace (0 * cos (lat * DEG_TO_RAD)) with 0 by ring.
  replace (cos (lat * DEG_TO_RAD) * sin (lat * DEG_TO_RAD) -
           sin (lat * DEG_TO_RAD) * cos (lat * DEG_TO_RAD) * 1) with 0 by ring.
  rewrite atan2_origin. ring.
Qed.

(** C7: on identical start and end points [calculate_true_course]
    returns normally, prints no error, and its value is 0, the bearing
    that [atan2(0, 0) = 0] gives. *)
Theorem true_course_same_point (lat lon : R) :
  math.atan2 0 0 = 0 /\ returns (calculate_true_course lat lon lat lon) 0.
Proof.
  split; [apply atan2_origin|].
  unfold returns. rewrite calculate_true_course_eq, bearing_deg_same_point.
  rewrite fmod_shift by lra.
  replace (0 + 360 - 360) with 0 by ring.
  now rewrite round_0.
Qed.

Lemma deg_45 : 45 * DEG_TO_RAD = PI / 4.
Proof. unfold DEG_TO_RAD, math.pi. field. Qed.

Lemma deg_90 : 90 * DEG_TO_RAD = PI / 2.
Proof. unfold DEG_TO_RAD, math.pi. field. Qed.

Lemma inv_sqrt2_pos : 0 < 1 / sqrt 2.
Proof.
  apply Rmult_lt_0_compat; [lra|].
  apply Rinv_0_lt_compat, sqrt_lt_R0. lra.
Qed.

Lemma bearing_deg_north_east : bearing_deg 0 0 45 90 = 45.
Proof.
  unfold bearing_deg, math.sin, math.cos.
  replace ((90 - 0) * DEG_TO_RAD) with (PI / 2) by (rewrite <- deg_90; ring).
  replace (0 * DEG_TO_RAD) with 0 by ring.
  rewrite deg_45, sin_PI2, cos_PI2, sin_0, cos_0, sin_PI4, cos_PI4.
  pose proof inv_sqrt2_pos as Hs.
  set (s := 1 / sqrt 2) in *.
  rewrite atan2_pos_x by lra.
  replace (1 * s / (1 * s - 0 * s * 0)) with 1 by (field; lra).
  rewrite atan_1. unfold RAD_TO_DEG, math.pi.
  pose proof PI_RGT_0. field. lra.
Qed.

Lemma bearing_deg_back_west : bearing_deg 45 90 0 0 = - 90.
Proof.
  unfold bearing_deg, math.sin, math.cos.
  replace ((0 - 90) * DEG_TO_RAD) with (- (PI / 2)) by (rewrite <- deg_90; ring).
  replace (0 * DEG_TO_RAD) with 0 by ring.
  rewrite deg_45, sin_neg, cos_neg, sin_PI2, cos_PI2, sin_0, cos_0.
  replace (cos (PI / 4) * 0 - sin (PI / 4) * 1 * 0) with 0 by ring.
  rewrite atan2_west by lra.
  unfold RAD_TO_DEG, math.pi. pose proof PI_RGT_0. field. lra.
Qed.

Lemma true_course_north_east :
  calculate_true_course 0 0 45 90 = ([], inr 45).
Proof.
  rewrite calculate_true_course_eq, bearing_deg_north_east.
  rewrite fmod_shift by lra.
  replace (45 + 360 - 360) with (IZR 450 / 10) by lra.
  rewrite round_tenths. do 2 f_equal. lra.
Qed.

Lemma true_course_back_west :
  calculate_true_course 45 90 0 0 = ([], inr 270).
Proof.
  rewrite calculate_true_course_eq, bearing_deg_back_west.
  rewrite fmod_small by lra.
  replace (- 90 + 360) with (IZR 2700 / 10) by lra.
  rewrite round_tenths. do 2 f_equal. lra.
Qed.

(** C6, as stated, fails: from (0, 0) to (45, 90) the true course is
    45, from (45, 90) back to (0, 0) it is 270, and 270 - 45 = 225 is
    45 degrees away from 180 modulo 360. *)
Lemma reciprocal_course_fails :
  (0, 0) <> (45, 90) /\
  returns (calculate_true_course 0 0 45 90) 45 /\
  returns (calculate_true_course 45 90 0 0) 270 /\
  ~ opposite 1 45 270.
Proof.
  split; [intros H; injection H; lra|].
  split; [apply true_course_north_east|].
  split; [apply true_course_back_west|].
  intros [k Hk].
  replace (270 - 45 - 180 - 360 * IZR k) with (45 - 360 * IZR k) in Hk by ring.
  destruct (Z.le_gt_cases k 0) as [Hle|Hgt].
  - apply IZR_le in Hle. rewrite Rabs_right in Hk; lra.
  - assert (H1 : (1 <= k)%Z) by lia. apply IZR_le in H1.
    rewrite Rabs_left in Hk; lra.
Qed.

Lemma bearing_deg_meridian (lat1 lat2 lon : R) :
  bearing_deg lat1 lon lat2 lon =
  math.atan2 0 (sin ((lat2 - lat1) * DEG_TO_RAD)) * RAD_TO_DEG.
Proof.
  unfold bearing_deg, math.sin, math.cos.
  replace ((lon - lon) * DEG_TO_RAD) with 0 by ring.
  rewrite sin_0, cos_0.
  replace ((lat2 - lat1) * DEG_TO_RAD)
    with (lat2 * DEG_TO_RAD - lat1 * DEG_TO_RAD) by ring.
  rewrite sin_minus. do 2 f_equal; ring.
Qed.

Lemma true_course_due_north (lat1 lat2 lon : R) :
  0 < lat2 - lat1 < 180 ->
  calculate_true_course lat1 lon lat2 lon = ([], inr 0).
Proof.
  intros [H1 H2]. pose proof deg_to_rad_pos as HD.
  rewrite calculate_true_course_eq, bearing_deg_meridian.
  rewrite atan2_north.
  - rewrite fmod_shift by lra.
    replace (0 * RAD_TO_DEG + 360 - 360) with 0 by ring.
    now rewrite round_0.
  - apply sin_gt_0.
    + now apply Rmult_lt_0_compat.
    + replace PI with (180 * DEG_TO_RAD)
        by (unfold DEG_TO_RAD, math.pi; field).
      now apply Rmult_lt_compat_r.
Qed.

Lemma true_course_due_south (lat1 lat2 lon : R) :
  0 < lat1 - lat2 < 180 ->
  calculate_true_course lat1 lon lat2 lon = ([], inr 180).
Proof.
  intros [H1 H2]. pose proof deg_to_rad_pos as HD.
  rewrite calculate_true_course_eq, bearing_deg_meridian.
  rewrite atan2_south.
  - replace (PI * RAD_TO_DEG + 360) with (180 + 360)
      by (unfold RAD_TO_DEG, math.pi; pose proof PI_RGT_0; field; lra).
    rewrite fmod_shift by lra.
    replace (180 + 360 - 360) with (IZR 1800 / 10) by lra.
    rewrite round_tenths. do 2 f_equal. lra.
  - replace ((lat2 - lat1) * DEG_TO_RAD)
      with (- ((lat1 - lat2) * DEG_TO_RAD)) by ring.
    rewrite sin_neg.
    assert (0 < sin ((lat1 - lat2) * DEG_TO_RAD)); [|lra].
    apply sin_gt_0.
    + now apply Rmult_lt_0_compat.
    + replace PI with (180 * DEG_TO_RAD)
        by (unfold DEG_TO_RAD, math.pi; field).
      now apply Rmult_lt_compat_r.
Qed.

End TrueCourse.

(** ** The range of the courses *)

Section CourseRange.

Import MagneticCourseCalculator.

Lemma round_half_even_floor (x : R) :
  (Zfloor x <= round_half_even x <= Zfloor x + 1)%Z.
Proof.
  unfold round_half_even.
  destruct (Rlt_dec (x - IZR (Zfloor x)) (1 / 2)); [lia|].
  destruct (Rlt_dec (1 / 2) (x - IZR (Zfloor x))); [lia|].
  destruct (Z.even (Zfloor x)); lia.
Qed.

(** The result of [round(x, 1)] is a whole number of tenths. *)
Lemma round_is_tenths (x : R) : exists k : Z, round x 1 = IZR k / 10.
Proof.
  exists (round_half_even (x * 10 ^ 1)). unfold round. simpl pow.
  f_equal. lra.
Qed.

Lemma round_range (x lo hi : R) (a b : Z) :
  lo = IZR a / 10 -> hi = IZR b / 10 ->
  lo <= x < hi -> lo <= round x 1 <= hi.
Proof.
  intros -> -> [H1 H2].
  pose proof (round_half_even_floor (x * 10 ^ 1)) as [Hf1 Hf2].
  unfold round. simpl pow in *.
  assert (Ha : (a <= Zfloor (x * (10 * 1)))%Z) by (apply Zfloor_lub; lra).
  assert (Hb : (Zfloor (x * (10 * 1)) < b)%Z).
  { apply lt_IZR. pose proof (Zfloor_bound (x * (10 * 1))). lra. }
  assert (Hr1 : (a <= round_half_even (x * (10 * 1)))%Z) by lia.
  assert (Hr2 : (round_half_even (x * (10 * 1)) <= b)%Z) by lia.
  apply IZR_le in Hr1, Hr2. lra.
Qed.

(** Whatever the coordinates, the true course lies in the closed
    interval from 0 to 360. *)
Lemma true_course_closed_range (lat1 lon1 lat2 lon2 : R) :
  exists v : R,
    returns (calculate_true_course lat1 lon1 lat2 lon2) v /\ 0 <= v <= 360.
Proof.
  eexists. split; [apply calculate_true_course_eq|].
  apply (round_range _ 0 360 0 3600); try lra.
  apply fmod_range. lra.
Qed.

Lemma atan_sin_small (t : R) :
  0 < t < PI / 2 -> 0 < atan (sin t) <= t.
Proof.
  intros [Ht1 Ht2]. pose proof PI_RGT_0 as Hpi.
  assert (Hs : 0 < sin t) by (apply sin_gt_0; lra).
  assert (Hc : 0 < cos t) by (apply cos_gt_0; lra).
  pose proof (COS_bound t) as [_ Hc1].
  split.
  - rewrite <- atan_0. now apply atan_increasing.
  - destruct (Rle_dec (atan (sin t)) t) as [Hle|Hgt]; [assumption|].
    exfalso.
    pose proof (atan_bound (sin t)) as [_ Hb].
    assert (Hlt : tan t < tan (atan (sin t)))
      by (apply tan_increasing; lra).
    rewrite tan_atan in Hlt. unfold tan in Hlt.
    assert (sin t <= sin t / cos t); [|lra].
    apply Rmult_le_reg_r with (cos t); [assumption|].
    unfold Rdiv. rewrite Rmult_assoc, Rinv_l by lra. nra.
Qed.

Lemma bearing_deg_just_west_of_north :
  - (1 / 100) <= bearing_deg 0 (1 / 100) 45 0 < 0.
Proof.
  pose proof PI_RGT_0 as Hpi. pose proof PI_4 as Hpi4.
  pose proof deg_to_rad_pos as HD. pose proof rad_to_deg_pos as HR.
  set (t := 1 / 100 * DEG_TO_RAD).
  assert (Ht : 0 < t < PI / 2).
  { unfold t, DEG_TO_RAD, math.pi. lra. }
  unfold bearing_deg, math.sin, math.cos.
  replace ((0 - 1 / 100) * DEG_TO_RAD) with (- t) by (unfold t; ring).
  replace (0 * DEG_TO_RAD) with 0 by ring.
  rewrite deg_45, sin_neg, cos_neg, sin_0, cos_0, sin_PI4, cos_PI4.
  pose proof inv_sqrt2_pos as Hs.
  set (s := 1 / sqrt 2) in *.
  replace (1 * s - 0 * s * cos t) with s by ring.
  rewrite atan2_pos_x by assumption.
  replace (- sin t * s / s) with (- sin t) by (field; lra).
  rewrite atan_opp.
  destruct (atan_sin_small t Ht) as [Ha1 Ha2].
  assert (Ht' : t * RAD_TO_DEG = 1 / 100).
  { unfold t. rewrite Rmult_assoc, deg_rad_inv. ring. }
  split.
  - apply Rmult_le_compat_r with (r := RAD_TO_DEG) in Ha2; lra.
  - apply Rmult_lt_compat_r with (r := RAD_TO_DEG) in Ha1; lra.
Qed.

(** C1 at a failing input: from (0, 0.01) to (45, 0) the bearing is
    just west of north, between 359.99 and 360, and rounding it to one
    decimal after the normalisation gives 360, which is outside
    [0, 360). *)
Theorem true_course_rounds_to_360 :
  accepted 0 /\ accepted (1 / 100) /\ accepted 45 /\
  returns (calculate_true_course 0 (1 / 100) 45 0) 360 /\
  ~ normalized 360.
Proof.
  repeat split.
  - unfold accepted. rewrite Rabs_right; lra.
  - unfold accepted. rewrite Rabs_right; lra.
  - unfold accepted. rewrite Rabs_right; lra.
  - unfold returns. rewrite calculate_true_course_eq.
    pose proof bearing_deg_just_west_of_north as [H1 H2].
    rewrite fmod_small by lra.
    rewrite (round_near _ 3600) by lra.
    do 2 f_equal. lra.
  - unfold normalized. lra.
Qed.

Lemma calculate_magnetic_course_eq (lat1 lon1 lat2 lon2 : R) :
  calculate_magnetic_course lat1 lon1 lat2 lon2 =
  let true_course :=
    round (fmod (bearing_deg lat1 lon1 lat2 lon2 + 360) 360) 1 in
  ([], inr (true_course,
            round (fmod (true_course + MAGNETIC_VARIATION + 360) 360) 1)).
Proof. reflexivity. Qed.

Lemma fmod_tenths (m : Z) : exists n : Z, fmod (IZR m / 10) 360 = IZR n / 10.
Proof.
  exists (m - 3600 * Zfloor (IZR m / 10 / 360))%Z.
  unfold fmod. rewrite minus_IZR, mult_IZR. lra.
Qed.

(** The magnetic course, computed from a true course that is already a
    whole number of tenths, stays in [0, 360). *)
Lemma magnetic_course_normalized (lat1 lon1 lat2 lon2 : R) :
  exists true_course magnetic_course : R,
    returns (calculate_magnetic_course lat1 lon1 lat2 lon2)
            (true_course, magnetic_course) /\
    normalized magnetic_course.
Proof.
  rewrite calculate_magnetic_course_eq. cbv zeta.
  set (tc := round (fmod (bearing_deg lat1 lon1 lat2 lon2 + 360) 360) 1).
  destruct (round_is_tenths (fmod (bearing_deg lat1 lon1 lat2 lon2 + 360) 360))
    as [k Hk].
  fold tc in Hk.
  exists tc, (round (fmod (tc + MAGNETIC_VARIATION + 360) 360) 1).
  split; [reflexivity|].
  replace (tc + MAGNETIC_VARIATION + 360) with (IZR (k - 41 + 3600) / 10)
    by (rewrite plus_IZR, minus_IZR, Hk; unfold MAGNETIC_VARIATION; lra).
  destruct (fmod_tenths (k - 41 + 3600)) as [n Hn].
  pose proof (fmod_range (IZR (k - 41 + 3600) / 10) 360) as Hr.
  rewrite Hn in *. rewrite round_tenths. unfold normalized. apply Hr. lra.
Qed.

End CourseRange.

(** ** The great-circle distance *)

Section Distance.

Import MagneticCourseCalculator.

Lemma distance_try_eq (lat1 lon1 lat2 lon2 : R) :
  distance_try lat1 lon1 lat2 lon2 =
  (let a := haversine_a lat1 lon1 lat2 lon2 in
   sa <- math.sqrt a ;;
   sb <- math.sqrt (1 - a) ;;
   ret (round (EARTH_RADIUS_NM * (2 * math.atan2 sa sb)) 1)).
Proof. reflexivity. Qed.

Lemma haversine_a_sym (lat1 lon1 lat2 lon2 : R) :
  haversine_a lat1 lon1 lat2 lon2 = haversine_a lat2 lon2 lat1 lon1.
Proof.
  unfold haversine_a, math.sin, math.cos.
  replace ((lat1 - lat2) * DEG_TO_RAD / 2)
    with (- ((lat2 - lat1) * DEG_TO_RAD / 2)) by field.
  replace ((lon1 - lon2) * DEG_TO_RAD / 2)
    with (- ((lon2 - lon1) * DEG_TO_RAD / 2)) by field.
  rewrite !sin_neg. ring.
Qed.

(** In exact arithmetic [a] is the sum of two products of squares, and
    so is [1 - a]. *)
Lemma haversine_a_squares (lat1 lon1 lat2 lon2 : R) :
  let u := (lat2 - lat1) * DEG_TO_RAD / 2 in
  let v := (lat2 + lat1) * DEG_TO_RAD / 2 in
  let w := (lon2 - lon1) * DEG_TO_RAD / 2 in
  haversine_a lat1 lon1 lat2 lon2 =
    (sin u)² * (cos w)² + (cos v)² * (sin w)² /\
  1 - haversine_a lat1 lon1 lat2 lon2 =
    (cos u)² * (cos w)² + (sin v)² * (sin w)².
Proof.
  intros u v w. unfold haversine_a, math.sin, math.cos.
  fold u. fold w.
  replace (lat1 * DEG_TO_RAD) with (v - u) by (unfold u, v; field).
  replace (lat2 * DEG_TO_RAD) with (v + u) by (unfold u, v; field).
  rewrite cos_minus, cos_plus.
  pose proof (sin2_cos2 u) as Hu. pose proof (sin2_cos2 v) as Hv.
  pose proof (sin2_cos2 w) as Hw.
  unfold Rsqr in *.
  set (su := sin u) in *. set (cu := cos u) in *.
  set (sv := sin v) in *. set (cv := cos v) in *.
  set (sw := sin w) in *. set (cw := cos w) in *.
  assert (Hcu : cu * cu = 1 - su * su) by lra.
  assert (Hsv : sv * sv = 1 - cv * cv) by lra.
  assert (Hcw : cw * cw = 1 - sw * sw) by lra.
  split.
  - replace (su * su * (cw * cw) + cv * cv * (sw * sw))
      with (su * su * (1 - sw * sw) + cv * cv * (sw * sw))
      by (rewrite Hcw; ring).
    replace (su * su + (cv * cu + sv * su) * (cv * cu - sv * su) * sw * sw)
      with (su * su + (cv * cv * (cu * cu) - sv * sv * (su * su)) * sw * sw)
      by ring.
    rewrite Hcu, Hsv. ring.
  - replace (cu * cu * (cw * cw) + sv * sv * (sw * sw))
      with ((1 - su * su) * (1 - sw * sw) + (1 - cv * cv) * (sw * sw))
      by (rewrite Hcu, Hcw, Hsv; ring).
    replace (1 - (su * su + (cv * cu + sv * su) * (cv * cu - sv * su) * sw * sw))
      with (1 - (su * su + (cv * cv * (cu * cu) - sv * sv * (su * su)) * sw * sw))
      by ring.
    rewrite Hcu, Hsv. ring.
Qed.

Lemma haversine_a_range (lat1 lon1 lat2 lon2 : R) :
  0 <= haversine_a lat1 lon1 lat2 lon2 <= 1.
Proof.
  destruct (haversine_a_squares lat1 lon1 lat2 lon2) as [H1 H2].
  cbv zeta in H1, H2.
  split.
  - rewrite H1.
    apply Rplus_le_le_0_compat; apply Rmult_le_pos; apply Rle_0_sqr.
  - assert (0 <= 1 - haversine_a lat1 lon1 lat2 lon2); [|lra].
    rewrite H2.
    apply Rplus_le_le_0_compat; apply Rmult_le_pos; apply Rle_0_sqr.
Qed.

(** In exact arithmetic both square roots are defined, so the [try]
    block runs to its [return]. *)
Lemma calculate_distance_eq (lat1 lon1 lat2 lon2 : R) :
  calculate_distance lat1 lon1 lat2 lon2 =
  let a := haversine_a lat1 lon1 lat2 lon2 in
  ([], inr (round (EARTH_RADIUS_NM *
                   (2 * math.atan2 (sqrt a) (sqrt (1 - a)))) 1)).
Proof.
  unfold calculate_distance. rewrite distance_try_eq. cbv zeta.
  pose proof (haversine_a_range lat1 lon1 lat2 lon2) as [H0 H1].
  unfold math.sqrt.
  destruct (Rlt_dec (haversine_a lat1 lon1 lat2 lon2) 0); [lra|].
  destruct (Rlt_dec (1 - haversine_a lat1 lon1 lat2 lon2) 0); [lra|].
  reflexivity.
Qed.

Lemma distance_sym (lat1 lon1 lat2 lon2 : R) :
  calculate_distance lat1 lon1 lat2 lon2 =
  calculate_distance lat2 lon2 lat1 lon1.
Proof.
  rewrite !calculate_distance_eq. cbv zeta.
  now rewrite (haversine_a_sym lat1 lon1 lat2 lon2).
Qed.

(** C5: the distance from A to B and the distance from B to A are both
    returned, and they differ by at most 1e-6 nautical miles (they are
    equal), for all coordinates, accepted or not. *)
Theorem distance_symmetric (lat1 lon1 lat2 lon2 : R) :
  exists d_ab d_ba : R,
    returns (calculate_distance lat1 lon1 lat2 lon2) d_ab /\
    returns (calculate_distance lat2 lon2 lat1 lon1) d_ba /\
    Rabs (d_ab - d_ba) <= 1 / 1000000.
Proof.
  rewrite (distance_sym lat2 lon2 lat1 lon1).
  rewrite calculate_distance_eq. cbv zeta.
  eexists. eexists. split; [reflexivity|]. split; [reflexivity|].
  rewrite Rminus_diag, Rabs_R0. lra.
Qed.

Lemma atan2_nonneg (y x : R) : 0 <= y -> 0 <= math.atan2 y x.
Proof.
  intros Hy. pose proof PI_RGT_0 as Hpi. unfold math.atan2.
  destruct (Rlt_dec 0 x) as [Hx|Hx].
  - destruct Hy as [Hy|<-].
    + left. rewrite <- atan_0. apply atan_increasing.
      apply Rmult_lt_0_compat; [assumption|now apply Rinv_0_lt_compat].
    + unfold Rdiv. rewrite Rmult_0_l, atan_0. lra.
  - destruct (Rlt_dec x 0) as [Hx'|Hx'].
    + destruct (Rle_dec 0 y); [|lra].
      pose proof (atan_bound (y / x)). lra.
    + destruct (Rlt_dec 0 y); [lra|].
      destruct (Rlt_dec y 0); lra.
Qed.

(** In exact arithmetic the distance returned is never negative. *)
Lemma distance_nonneg (lat1 lon1 lat2 lon2 : R) :
  exists d : R,
    returns (calculate_distance lat1 lon1 lat2 lon2) d /\ 0 <= d.
Proof.
  rewrite calculate_distance_eq. cbv zeta.
  eexists. split; [reflexivity|].
  set (c := math.atan2 _ _).
  assert (Hc : 0 <= c) by (apply atan2_nonneg, sqrt_pos).
  pose proof (round_half_even_floor (EARTH_RADIUS_NM * (2 * c) * 10 ^ 1))
    as [Hf _].
  assert (H0 : (0 <= Zfloor (EARTH_RADIUS_NM * (2 * c) * 10 ^ 1))%Z).
  { apply Zfloor_lub. simpl pow. unfold EARTH_RADIUS_NM. nra. }
  unfold round.
  assert (Hr : (0 <= round_half_even (EARTH_RADIUS_NM * (2 * c) * 10 ^ 1))%Z)
    by lia.
  apply IZR_le in Hr. simpl pow in *. lra.
Qed.

(** C8: [calculate_distance] is its [try] block under the handler
    [except Exception]; whatever exception the block raises, after
    whatever output, the function prints the error and returns 0; and no
    exception ever reaches the caller. *)
Theorem distance_failure_reported (lat1 lon1 lat2 lon2 : R) :
  calculate_distance lat1 lon1 lat2 lon2 =
    def (try_except (distance_try lat1 lon1 lat2 lon2)
                    except_Exception distance_except) /\
  (forall (o : list line) (e : exn),
     def (try_except (o, Raise e) except_Exception distance_except) =
     (o ++ [Err "Error calculating distance" e], inr 0)) /\
  (forall (body : M R R) (o : list line) (e : exn),
     def (try_except body except_Exception distance_except) <> (o, inl e)).
Proof.
  split; [reflexivity|]. split; [reflexivity|].
  intros [o' [a|v|e']] o e; cbn; discriminate.
Qed.

(** In exact arithmetic no accepted input, with a latitude outside
    [-90, 90] or not, makes [a] negative. *)
Lemma haversine_never_negative :
  ~ exists lat1 lon1 lat2 lon2 : R,
      accepted lat1 /\ accepted lon1 /\ accepted lat2 /\ accepted lon2 /\
      (90 < Rabs lat1 \/ 90 < Rabs lat2) /\
      haversine_a lat1 lon1 lat2 lon2 < 0.
Proof.
  intros (lat1 & lon1 & lat2 & lon2 & _ & _ & _ & _ & _ & Hneg).
  pose proof (haversine_a_range lat1 lon1 lat2 lon2). lra.
Qed.

(** In exact arithmetic, for every input, whether its latitudes are in
    [-90, 90] or not, the haversine intermediate [a] lies in [0, 1]; both
    square roots are defined, the [try] block runs to its [return]
    without raising, and the distance returned is not negative.  The
    bounds 0 and 1 are attained, so this says nothing of an evaluation
    that rounds. *)
Lemma haversine_safe (lat1 lon1 lat2 lon2 : R) :
  let a := haversine_a lat1 lon1 lat2 lon2 in
  0 <= a <= 1 /\
  @math.sqrt R a = ret (sqrt a) /\
  @math.sqrt R (1 - a) = ret (sqrt (1 - a)) /\
  exists d : R,
    distance_try lat1 lon1 lat2 lon2 = ([], Next d) /\
    returns (calculate_distance lat1 lon1 lat2 lon2) d /\
    0 <= d.
Proof.
  intros a. pose proof (haversine_a_range lat1 lon1 lat2 lon2) as Ha.
  fold a in Ha.
  assert (H1 : @math.sqrt R a = ret (sqrt a)).
  { unfold math.sqrt. destruct (Rlt_dec a 0); [lra|reflexivity]. }
  assert (H2 : @math.sqrt R (1 - a) = ret (sqrt (1 - a))).
  { unfold math.sqrt. destruct (Rlt_dec (1 - a) 0); [lra|reflexivity]. }
  split; [assumption|]. split; [assumption|]. split; [assumption|].
  destruct (distance_nonneg lat1 lon1 lat2 lon2) as (d & Hd & Hpos).
  exists d. split; [|split; assumption].
  unfold returns in Hd. rewrite calculate_distance_eq in Hd. cbv zeta in Hd.
  fold a in Hd. injection Hd as <-.
  rewrite distance_try_eq. cbv zeta. fold a. rewrite H1, bind_ret, H2, bind_ret.
  reflexivity.
Qed.

End Distance.

(** ** The wind triangle *)

Section WindTriangle.

Import FlightTime.

Variable i : inputs.

Lemma wca_block_domain_error :
  true_air_speed i <> 0 ->
  asin_arg i < -1 \/ 1 < asin_arg i ->
  wca_block i =
  ([Text "Invalid input: wind speed too high relative to TAS."], Return tt).
Proof.
  intros Htas Harg. unfold wca_block.
  rewrite truediv_ok, bind_ret by assumption.
  unfold wind_dir_rad, true_course_rad, math.sin.
  fold (asin_arg i). rewrite asin_domain_error by assumption.
  reflexivity.
Qed.

Lemma wca_block_ok :
  true_air_speed i <> 0 ->
  -1 <= asin_arg i <= 1 ->
  -1 <= wind_speed i / true_air_speed i <= 1 ->
  wca_block i =
  ([Num (round (asin (wind_speed i / true_air_speed i)) 9);
    Num (round (sin (math.radians (wind_dir i) -
                     math.radians (true_course i))) 9);
    Num (round (math.degrees (asin (asin_arg i))) 9)],
   Next (asin (asin_arg i))).
Proof.
  intros Htas Harg Hratio. unfold wca_block.
  rewrite truediv_ok, bind_ret by assumption.
  unfold wind_dir_rad, true_course_rad, math.sin.
  fold (asin_arg i). rewrite asin_ok, bind_ret by assumption.
  rewrite bind_ret.
  rewrite asin_ok, bind_ret by assumption.
  reflexivity.
Qed.

(** C4: with a true air speed that is not zero, when the argument of
    [asin] on line 30 is outside [-1, 1] the function prints that the
    wind is too strong and returns normally, no exception reaching the
    caller; and when the argument and the ratio printed on line 31 are
    in [-1, 1], the wind correction angle is [asin] of that argument. *)
Theorem wind_correction_angle_spec :
  true_air_speed i <> 0 ->
  (asin_arg i < -1 \/ 1 < asin_arg i ->
   calculate_flight_time_on i =
   ([Text "Invalid input: wind speed too high relative to TAS."], inr tt)) /\
  (-1 <= asin_arg i <= 1 ->
   -1 <= wind_speed i / true_air_speed i <= 1 ->
   exists o : list line, wca_block i = (o, Next (asin (asin_arg i)))).
Proof.
  intros Htas. split.
  - intros Harg. unfold calculate_flight_time_on.
    now rewrite wca_block_domain_error.
  - intros Harg Hratio. eexists. now apply wca_block_ok.
Qed.

Lemma ground_speed_block_aligned (wca_rad : R) :
  aligned i ->
  ground_speed_block i wca_rad = ([], Next (true_air_speed i - wind_speed i)).
Proof.
  unfold aligned, ground_speed_block, true_course_rad.
  rewrite degrees_radians. intros H.
  destruct (Req_dec_T (round (true_course i) 1) (round (wind_dir i) 1));
    [reflexivity|contradiction].
Qed.

Lemma ground_speed_block_general (wca_rad : R) :
  ~ aligned i -> sin wca_rad <> 0 ->
  ground_speed_block i wca_rad =
  ([], Next (wind_speed i *
             sin (math.radians (wind_dir i) -
                  math.radians (true_course i) - wca_rad) /
             sin wca_rad)).
Proof.
  unfold aligned, ground_speed_block, true_course_rad, wind_dir_rad, math.sin.
  rewrite degrees_radians. intros H Hs.
  destruct (Req_dec_T (round (true_course i) 1) (round (wind_dir i) 1));
    [contradiction|].
  now rewrite truediv_ok.
Qed.

Lemma ground_speed_block_zero_division (wca_rad : R) :
  ~ aligned i -> sin wca_rad = 0 ->
  ground_speed_block i wca_rad =
  ([Text "Ground speed calculation failed due to angle conditions."],
   Return tt).
Proof.
  unfold aligned, ground_speed_block, true_course_rad, wind_dir_rad, math.sin.
  rewrite degrees_radians. intros H Hs.
  destruct (Req_dec_T (round (true_course i) 1) (round (wind_dir i) 1));
    [contradiction|].
  rewrite Hs, truediv_zero. reflexivity.
Qed.

Lemma flight_time_block_low (ground_speed : R) :
  ground_speed <= 0 ->
  flight_time_block i ground_speed =
  ([Text "Error: Ground speed too low or negative."], Return tt).
Proof.
  intros H. unfold flight_time_block.
  destruct (Rle_dec ground_speed 0); [reflexivity|contradiction].
Qed.

Lemma flight_time_block_ok (ground_speed : R) :
  0 < ground_speed ->
  flight_time_block i ground_speed =
  ([], Next (Zceil (distance_nm i / ground_speed * 60))).
Proof.
  intros H. unfold flight_time_block.
  destruct (Rle_dec ground_speed 0); [lra|].
  rewrite truediv_ok, bind_ret by lra. reflexivity.
Qed.

End WindTriangle.

(** ** Where binary64 parts from the reals *)

Section Rounded.

Import FlightTime.





(** A ground speed that is zero or negative ends on the message of
    line 53, in binary64 too. *)
Lemma flight_time_too_slow (distance_nm ground_speed : PrimFloat.float) :
  PrimFloat.leb ground_speed PrimFloat.zero = true ->
  Binary64.flight_time distance_nm ground_speed = Binary64.TooSlow.
Proof. intros H. unfold Binary64.flight_time. now rewrite H. Qed.


End Rounded.

(** ** The script's own run *)

Section Hardcoded.

Import FlightTime.

Lemma hardcoded_true_course : true_course hardcoded = 86.
Proof. unfold true_course. simpl. lra. Qed.

Lemma hardcoded_angle :
  math.radians (wind_dir hardcoded) - math.radians (true_course hardcoded) =
  math.radians 94.
Proof. rewrite hardcoded_true_course. unfold math.radians. simpl. lra. Qed.

Lemma radians_94_range : PI / 2 < math.radians 94 < PI.
Proof. unfold math.radians. pose proof PI_RGT_0. lra. Qed.

Lemma sin_94_pos : 0 < sin (math.radians 94) <= 1.
Proof.
  pose proof radians_94_range. split.
  - apply sin_gt_0; lra.
  - apply SIN_bound.
Qed.

Lemma hardcoded_asin_arg :
  asin_arg hardcoded = 90 / 120 * sin (math.radians 94).
Proof. unfold asin_arg. now rewrite hardcoded_angle. Qed.

Lemma hardcoded_not_aligned : ~ aligned hardcoded.
Proof.
  unfold aligned, true_course_rad.
  rewrite degrees_radians, hardcoded_true_course. simpl wind_dir.
  replace 86 with (IZR 860 / 10) by lra.
  replace 180 with (IZR 1800 / 10) by lra.
  rewrite !round_tenths. lra.
Qed.

(** The wind correction angle of the script's run lies strictly between
    0 and a right angle. *)
Lemma hardcoded_wca_range :
  let wca := asin (90 / 120 * sin (math.radians 94)) in
  0 < wca < PI / 2 /\ sin wca = 90 / 120 * sin (math.radians 94).
Proof.
  intros wca. pose proof sin_94_pos as [Hs0 Hs1]. pose proof PI_RGT_0 as Hpi.
  assert (Hsin : sin wca = 90 / 120 * sin (math.radians 94))
    by (apply sin_asin; lra).
  assert (Hb : - (PI / 2) < wca < PI / 2) by (apply asin_bound_lt; lra).
  split; [|assumption]. split; [|lra].
  destruct (Rlt_dec 0 wca) as [Hpos|Hneg]; [assumption|exfalso].
  destruct (Req_dec_T wca 0) as [H0|H0].
  - rewrite H0, sin_0 in Hsin. lra.
  - assert (sin wca < 0) by (apply sin_lt_0_var; lra). lra.
Qed.

Lemma hardcoded_ground_speed_pos :
  let wca := asin (90 / 120 * sin (math.radians 94)) in
  0 < 90 * sin (math.radians 94 - wca) / sin wca.
Proof.
  intros wca. destruct hardcoded_wca_range as [[Hw0 Hw1] Hsin].
  fold wca in Hw0, Hw1, Hsin.
  pose proof sin_94_pos as [Hs0 Hs1]. pose proof radians_94_range as [Hr0 Hr1].
  assert (0 < sin (math.radians 94 - wca)) by (apply sin_gt_0; lra).
  apply Rmult_lt_0_compat.
  - lra.
  - apply Rinv_0_lt_compat. lra.
Qed.

Lemma PI_rough : 3135 / 1000 < PI < 324 / 100.
Proof.
  pose proof (PI_2_3_7_ineq 0) as [Hlo Hhi].
  unfold sum_f_R0, tg_alt, PI_2_3_7_tg, Ratan_seq in Hlo, Hhi.
  simpl in Hlo, Hhi. lra.
Qed.

Lemma sin_cubic (a : R) : 0 <= a <= PI -> a - a * a * a / 6 <= sin a.
Proof.
  intros [H0 H1]. pose proof (sin_bound a 0 H0 H1) as [Hlo _].
  unfold sin_approx, sin_term in Hlo. simpl in Hlo. lra.
Qed.

Lemma sin_4_bounds : 695 / 10000 < sin (math.radians 4) < 72 / 1000.
Proof.
  pose proof PI_rough as [Hp0 Hp1].
  set (x := math.radians 4).
  assert (Hx : 3135 / 45000 < x < 324 / 4500) by (unfold x, math.radians; lra).
  split.
  - assert (Hc : x - x * x * x / 6 <= sin x) by (apply sin_cubic; lra).
    assert (Hcube : x * x * x <= 72 / 1000 * (72 / 1000) * (72 / 1000)).
    { assert (x * x <= 72 / 1000 * (72 / 1000)) by nra. nra. }
    lra.
  - assert (sin x < x) by (apply sin_lt_x; lra). lra.
Qed.

(** The ground speed of the script's run, without the division: the
    wind triangle gives 120 cos(wca) + 90 sin(4 degrees). *)
Lemma hardcoded_ground_speed_value :
  let wca := asin (90 / 120 * sin (math.radians 94)) in
  90 * sin (math.radians 94 - wca) / sin wca =
  120 * cos wca + 90 * sin (math.radians 4) /\
  (cos wca)² = 4375 / 10000 + 5625 / 10000 * (sin (math.radians 4))² /\
  0 < cos wca.
Proof.
  intros wca. destruct hardcoded_wca_range as [[Hw0 Hw1] Hsin].
  fold wca in Hw0, Hw1, Hsin.
  pose proof sin_94_pos as [Hs0 Hs1].
  assert (H94 : math.radians 94 = PI / 2 + math.radians 4)
    by (unfold math.radians; field).
  assert (Hs94 : sin (math.radians 94) = cos (math.radians 4)).
  { rewrite H94, sin_plus, sin_PI2, cos_PI2. ring. }
  assert (Hc94 : cos (math.radians 94) = - sin (math.radians 4)).
  { rewrite H94, cos_plus, sin_PI2, cos_PI2. ring. }
  assert (Hcw : 0 < cos wca) by (apply cos_gt_0; lra).
  pose proof (sin2_cos2 wca) as Hw. pose proof (sin2_cos2 (math.radians 4)) as H4.
  unfold Rsqr in *.
  split; [|split; [|assumption]].
  - rewrite sin_minus, Hc94, Hsin. rewrite Hs94 in *.
    field. lra.
  - rewrite Hsin, Hs94 in Hw. nra.
Qed.

(** The flight time the script prints is 26 minutes (the ground speed
    is between 85.85 and 86.9 knots). *)
Lemma hardcoded_flight_time :
  let wca := asin (90 / 120 * sin (math.radians 94)) in
  let ground_speed := 90 * sin (math.radians 94 - wca) / sin wca in
  Zceil (372 / 10 / ground_speed * 60) = 26%Z.
Proof.
  intros wca ground_speed.
  destruct hardcoded_ground_speed_value as (Hgs & Hc2 & Hc0).
  fold wca in Hgs, Hc2, Hc0. fold ground_speed in Hgs.
  pose proof sin_4_bounds as [Hs0 Hs1].
  unfold Rsqr in Hc2.
  set (c := cos wca) in *. set (s := sin (math.radians 4)) in *.
  assert (Hclo : 6633 / 10000 < c) by nra.
  assert (Hchi : c < 67 / 100) by nra.
  assert (Hg : 2232 / 26 <= ground_speed < 2232 / 25) by lra.
  clearbody ground_speed.
  apply Zceil_eq.
  assert (Hpos : 0 < ground_speed) by lra.
  replace (372 / 10 / ground_speed * 60) with (2232 / ground_speed)
    by (field; lra).
  assert (Hq : 2232 / ground_speed * ground_speed = 2232) by (field; lra).
  split.
  - apply Rmult_lt_reg_r with ground_speed; [assumption|]. rewrite Hq. lra.
  - apply Rmult_le_reg_r with ground_speed; [assumption|]. rewrite Hq. lra.
Qed.

(** C9: with the values written in the script the true course is 86,
    the run takes the general branch of the ground-speed computation,
    and it prints the wind correction angle, the ground speed and the
    flight time that the wind-triangle formulas give; the flight time
    is 26 minutes. *)
Theorem hardcoded_run :
  let wca := asin (90 / 120 * sin (math.radians 94)) in
  let ground_speed := 90 * sin (math.radians 94 - wca) / sin wca in
  let flight_time := Zceil (372 / 10 / ground_speed * 60) in
  true_course hardcoded = 86 /\
  ~ aligned hardcoded /\
  wca_block hardcoded =
    ([Num (round (asin (90 / 120)) 9);
      Num (round (sin (math.radians 94)) 9);
      Num (round (math.degrees wca) 9)], Next wca) /\
  ground_speed_block hardcoded wca = ([], Next ground_speed) /\
  flight_time_block hardcoded ground_speed = ([], Next flight_time) /\
  calculate_flight_time =
    ([Num (round (asin (90 / 120)) 9);
      Num (round (sin (math.radians 94)) 9);
      Num (round (math.degrees wca) 9);
      Text (newline ++ "✅ Results:");
      Field "WCA" (math.degrees wca);
      Field "Ground Speed" ground_speed;
      Field "True Course" 86;
      FieldZ "Estimated Flight Time" flight_time], inr tt) /\
  flight_time = 26%Z.
Proof.
  intros wca ground_speed flight_time.
  pose proof sin_94_pos as [Hs0 Hs1].
  destruct hardcoded_wca_range as [[Hw0 Hw1] Hsin]. fold wca in Hw0, Hw1, Hsin.
  pose proof hardcoded_ground_speed_pos as Hgs. cbv zeta in Hgs.
  fold wca in Hgs. fold ground_speed in Hgs.
  assert (Hwca : wca_block hardcoded =
    ([Num (round (asin (90 / 120)) 9);
      Num (round (sin (math.radians 94)) 9);
      Num (round (math.degrees wca) 9)], Next wca)).
  { rewrite wca_block_ok.
    - rewrite hardcoded_angle, hardcoded_asin_arg. reflexivity.
    - simpl. lra.
    - rewrite hardcoded_asin_arg. lra.
    - simpl. lra. }
  assert (Hground : ground_speed_block hardcoded wca = ([], Next ground_speed)).
  { rewrite ground_speed_block_general.
    - rewrite hardcoded_angle. reflexivity.
    - apply hardcoded_not_aligned.
    - lra. }
  assert (Htime : flight_time_block hardcoded ground_speed =
                  ([], Next flight_time)).
  { now rewrite flight_time_block_ok. }
  split; [apply hardcoded_true_course|].
  split; [apply hardcoded_not_aligned|].
  split; [assumption|]. split; [assumption|]. split; [assumption|].
  unfold calculate_flight_time, calculate_flight_time_on.
  rewrite Hwca. unfold bind at 1. fold wca.
  rewrite Hground. unfold bind at 1.
  rewrite Htime. unfold bind, print, ret, def. simpl app.
  rewrite hardcoded_true_course.
  split; [reflexivity|apply hardcoded_flight_time].
Qed.

End Hardcoded.

(** ** The statements at sample inputs *)

Section Samples.

Import FlightTime.

Lemma headwind_aligned : aligned headwind.
Proof.
  unfold aligned, true_course_rad, true_course.
  rewrite degrees_radians. simpl. f_equal. lra.
Qed.

Lemma calm_not_aligned : ~ aligned calm.
Proof.
  unfold aligned, true_course_rad, true_course.
  rewrite degrees_radians. simpl.
  replace (86 - 0) with (IZR 860 / 10) by lra.
  replace 180 with (IZR 1800 / 10) by lra.
  rewrite !round_tenths. lra.
Qed.

Lemma gale_asin_arg : asin_arg gale = 200 / 120.
Proof.
  unfold asin_arg, true_course, math.radians. simpl.
  replace (180 * (PI / 180) - (90 - 0) * (PI / 180)) with (PI / 2) by field.
  rewrite sin_PI2. lra.
Qed.

Lemma wind_correction_angle_spec_witness :
  (true_air_speed gale <> 0 /\ 1 < asin_arg gale /\
   calculate_flight_time_on gale =
   ([Text "Invalid input: wind speed too high relative to TAS."], inr tt)) /\
  (true_air_speed hardcoded <> 0 /\ -1 <= asin_arg hardcoded <= 1 /\
   exists o : list line,
     wca_block hardcoded = (o, Next (asin (asin_arg hardcoded)))).
Proof.
  assert (Hg : true_air_speed gale <> 0) by (simpl; lra).
  assert (Hh : true_air_speed hardcoded <> 0) by (simpl; lra).
  assert (Ha : 1 < asin_arg gale) by (rewrite gale_asin_arg; lra).
  assert (Hb : -1 <= asin_arg hardcoded <= 1).
  { rewrite hardcoded_asin_arg. pose proof sin_94_pos. lra. }
  assert (Hr : -1 <= wind_speed hardcoded / true_air_speed hardcoded <= 1)
    by (simpl; lra).
  split.
  - exact (conj Hg (conj Ha
             (proj1 (wind_correction_angle_spec gale Hg) (or_intror Ha)))).
  - exact (conj Hh (conj Hb
             (proj2 (wind_correction_angle_spec hardcoded Hh) Hb Hr))).
Defined.

(** With no wind the run reaches the division by [sin(wca) = 0] in the
    general branch and reports it. *)
Lemma calm_run :
  calculate_flight_time_on calm =
  ([Num (round (asin (0 / 120)) 9);
    Num (round (sin (math.radians 180 - math.radians (true_course calm))) 9);
    Num (round (math.degrees (asin (asin_arg calm))) 9);
    Text "Ground speed calculation failed due to angle conditions."],
   inr tt).
Proof.
  assert (Harg : asin_arg calm = 0) by (unfold asin_arg; simpl; lra).
  unfold calculate_flight_time_on.
  rewrite wca_block_ok.
  - unfold bind at 1.
    rewrite ground_speed_block_zero_division.
    + reflexivity.
    + apply calm_not_aligned.
    + rewrite Harg, asin_0. apply sin_0.
  - simpl. lra.
  - rewrite Harg. lra.
  - simpl. lra.
Qed.

End Samples.

(** ** More on the courses *)

Section Courses.

Import MagneticCourseCalculator.

Lemma atan2_east (y : R) : 0 < y -> math.atan2 y 0 = PI / 2.
Proof.
  intros H. unfold math.atan2.
  destruct (Rlt_dec 0 0); [lra|].
  destruct (Rlt_dec 0 y); [reflexivity|lra].
Qed.

Lemma round_tenths_bounds (x : R) (a b : Z) :
  IZR a / 10 <= x < IZR b / 10 ->
  (a <= round_half_even (x * 10 ^ 1) <= b)%Z.
Proof.
  intros [H1 H2].
  pose proof (round_half_even_floor (x * 10 ^ 1)) as [Hf1 Hf2].
  simpl pow in *.
  assert (Ha : (a <= Zfloor (x * (10 * 1)))%Z) by (apply Zfloor_lub; lra).
  assert (Hb : (Zfloor (x * (10 * 1)) < b)%Z).
  { apply lt_IZR. pose proof (Zfloor_bound (x * (10 * 1))). lra. }
  lia.
Qed.

(** X1: whatever the coordinates, [calculate_true_course] returns
    without printing an error, and its value is a whole number of tenths
    of a degree between 0 and 360, both included. *)
Theorem true_course_tenths (lat1 lon1 lat2 lon2 : R) :
  exists k : Z,
    returns (calculate_true_course lat1 lon1 lat2 lon2) (IZR k / 10) /\
    (0 <= k <= 3600)%Z.
Proof.
  exists (round_half_even
            (fmod (bearing_deg lat1 lon1 lat2 lon2 + 360) 360 * 10 ^ 1)).
  split.
  - unfold returns. rewrite calculate_true_course_eq. unfold round.
    do 3 f_equal. simpl. lra.
  - apply round_tenths_bounds.
    pose proof (fmod_range (bearing_deg lat1 lon1 lat2 lon2 + 360) 360).
    lra.
Qed.

(** X2: the magnetic course returned beside the true course is the true
    course minus 4.1 degrees, wrapped once around: 4.1 less when the true
    course is at least 4.1, 355.9 more when it is below; it always lies
    in [0, 360). *)
Theorem magnetic_course_offset (lat1 lon1 lat2 lon2 : R) :
  exists true_course magnetic_course : R,
    returns (calculate_true_course lat1 lon1 lat2 lon2) true_course /\
    returns (calculate_magnetic_course lat1 lon1 lat2 lon2)
            (true_course, magnetic_course) /\
    0 <= magnetic_course < 360 /\
    (41 / 10 <= true_course -> magnetic_course = true_course - 41 / 10) /\
    (true_course < 41 / 10 -> magnetic_course = true_course + 3559 / 10).
Proof.
  rewrite calculate_magnetic_course_eq, calculate_true_course_eq. cbv zeta.
  set (x := fmod (bearing_deg lat1 lon1 lat2 lon2 + 360) 360).
  assert (Hx : 0 <= x < 360) by (apply fmod_range; lra).
  pose proof (round_tenths_bounds x 0 3600) as Hk.
  set (k := round_half_even (x * 10 ^ 1)) in *.
  assert (Htc : round x 1 = IZR k / 10).
  { unfold round. fold k. simpl. lra. }
  assert (Hk' : (0 <= k <= 3600)%Z) by (apply Hk; lra).
  destruct Hk' as [Hk0 Hk1]. apply IZR_le in Hk0, Hk1.
  exists (round x 1), (round (fmod (round x 1 + MAGNETIC_VARIATION + 360) 360) 1).
  split; [reflexivity|]. split; [reflexivity|].
  rewrite Htc. unfold MAGNETIC_VARIATION.
  destruct (Rle_dec (41 / 10) (IZR k / 10)) as [Hge|Hlt].
  - rewrite fmod_shift by lra.
    replace (IZR k / 10 + - (41 / 10) + 360 - 360) with (IZR (k - 41) / 10)
      by (rewrite minus_IZR; lra).
    rewrite round_tenths, minus_IZR.
    split; [lra|]. split; intros; lra.
  - rewrite fmod_small by lra.
    replace (IZR k / 10 + - (41 / 10) + 360) with (IZR (k + 3559) / 10)
      by (rewrite plus_IZR; lra).
    rewrite round_tenths, plus_IZR.
    split; [lra|]. split; intros; lra.
Qed.

Lemma bearing_deg_equator (lon1 lon2 : R) :
  bearing_deg 0 lon1 0 lon2 =
  math.atan2 (sin ((lon2 - lon1) * DEG_TO_RAD)) 0 * RAD_TO_DEG.
Proof.
  unfold bearing_deg, math.sin, math.cos.
  replace (0 * DEG_TO_RAD) with 0 by ring.
  rewrite sin_0, cos_0. do 2 f_equal; ring.
Qed.

Lemma deg_to_rad_lt_PI (d : R) : d < 180 -> d * DEG_TO_RAD < PI.
Proof.
  intros H. pose proof deg_to_rad_pos.
  replace PI with (180 * DEG_TO_RAD) by (unfold DEG_TO_RAD, math.pi; field).
  now apply Rmult_lt_compat_r.
Qed.

Lemma true_course_due_east (lon1 lon2 : R) :
  0 < lon2 - lon1 < 180 ->
  calculate_true_course 0 lon1 0 lon2 = ([], inr 90).
Proof.
  intros [H1 H2]. pose proof deg_to_rad_pos as HD.
  rewrite calculate_true_course_eq, bearing_deg_equator.
  rewrite atan2_east.
  - replace (PI / 2 * RAD_TO_DEG + 360) with (90 + 360)
      by (unfold RAD_TO_DEG, math.pi; pose proof PI_RGT_0; field; lra).
    rewrite fmod_shift by lra.
    replace (90 + 360 - 360) with (IZR 900 / 10) by lra.
    rewrite round_tenths. do 2 f_equal. lra.
  - apply sin_gt_0; [now apply Rmult_lt_0_compat|now apply deg_to_rad_lt_PI].
Qed.

Lemma true_course_due_west (lon1 lon2 : R) :
  0 < lon1 - lon2 < 180 ->
  calculate_true_course 0 lon1 0 lon2 = ([], inr 270).
Proof.
  intros [H1 H2]. pose proof deg_to_rad_pos as HD.
  rewrite calculate_true_course_eq, bearing_deg_equator.
  rewrite atan2_west.
  - replace (- (PI / 2) * RAD_TO_DEG + 360) with (IZR 2700 / 10)
      by (unfold RAD_TO_DEG, math.pi; pose proof PI_RGT_0; field; lra).
    rewrite fmod_small by lra.
    rewrite round_tenths. do 2 f_equal. lra.
  - replace ((lon2 - lon1) * DEG_TO_RAD)
      with (- ((lon1 - lon2) * DEG_TO_RAD)) by ring.
    rewrite sin_neg.
    assert (0 < sin ((lon1 - lon2) * DEG_TO_RAD)); [|lra].
    apply sin_gt_0; [now apply Rmult_lt_0_compat|now apply deg_to_rad_lt_PI].
Qed.

(** X3: the four cardinal courses.  Along a meridian the true course is
    0 towards the higher latitude and 180 towards the lower one; along
    the equator it is 90 towards the east and 270 towards the west (the
    two points less than 180 degrees apart). *)
Theorem cardinal_courses (a b c : R) :
  0 < b - a < 180 ->
  returns (calculate_true_course a c b c) 0 /\
  returns (calculate_true_course b c a c) 180 /\
  returns (calculate_true_course 0 a 0 b) 90 /\
  returns (calculate_true_course 0 b 0 a) 270.
Proof.
  intros H. unfold returns.
  split; [now apply true_course_due_north|].
  split; [now apply true_course_due_south|].
  split; [now apply true_course_due_east|now apply true_course_due_west].
Qed.

Lemma cardinal_courses_witness :
  0 < 24 - 23 < 180 /\
  returns (calculate_true_course 23 120 24 120) 0 /\
  returns (calculate_true_course 24 120 23 120) 180 /\
  returns (calculate_true_course 0 23 0 24) 90 /\
  returns (calculate_true_course 0 24 0 23) 270.
Proof.
  assert (H : 0 < 24 - 23 < 180) by lra.
  exact (conj H (cardinal_courses 23 24 120 H)).
Defined.

End Courses.

(** ** Courses out and back *)

Section Reciprocal.

Import MagneticCourseCalculator.

(** The point opposite [(x, y)] is half a turn away. *)
Lemma atan2_opposite (y x : R) :
  y <> 0 \/ x <> 0 ->
  (0 < math.atan2 y x /\ math.atan2 (- y) (- x) = math.atan2 y x - PI) \/
  (math.atan2 y x <= 0 /\ math.atan2 (- y) (- x) = math.atan2 y x + PI).
Proof.
  intros Hne. pose proof PI_RGT_0 as Hpi.
  assert (Hq : x <> 0 -> - y / - x = y / x) by (intros; field; lra).
  unfold math.atan2.
  destruct (Rlt_dec 0 x) as [Hx|Hx].
  - destruct (Rlt_dec 0 (- x)); [lra|].
    destruct (Rlt_dec (- x) 0); [|lra].
    rewrite Hq by lra.
    destruct (Rle_dec 0 (- y)) as [Hy|Hy].
    + right. split; [|reflexivity].
      rewrite <- atan_0.
      destruct (Req_dec y 0) as [->|Hy0].
      * unfold Rdiv. rewrite Rmult_0_l. lra.
      * left. apply atan_increasing.
        replace (y / x) with (- (- y * / x)) by (field; lra).
        assert (0 < - y * / x); [|lra].
        apply Rmult_lt_0_compat; [lra|now apply Rinv_0_lt_compat].
    + left. split; [|reflexivity].
      rewrite <- atan_0. apply atan_increasing.
      apply Rmult_lt_0_compat; [lra|now apply Rinv_0_lt_compat].
  - destruct (Rlt_dec x 0) as [Hx'|Hx'].
    + destruct (Rlt_dec 0 (- x)); [|lra].
      rewrite Hq by lra.
      pose proof (atan_bound (y / x)) as Hb.
      destruct (Rle_dec 0 y).
      * left. split; lra.
      * right. split; lra.
    + assert (x = 0) by lra. subst x.
      destruct (Rlt_dec 0 (- 0)); [lra|].
      destruct (Rlt_dec (- 0) 0); [lra|].
      destruct (Rlt_dec 0 y).
      * destruct (Rlt_dec 0 (- y)); [lra|].
        destruct (Rlt_dec (- y) 0); [|lra].
        left. split; lra.
      * destruct (Rlt_dec y 0).
        -- destruct (Rlt_dec 0 (- y)); [|lra]. right. split; lra.
        -- exfalso. destruct Hne; lra.
Qed.

Lemma Zfloor_shift (x : R) (n : Z) : Zfloor (x + IZR n) = (Zfloor x + n)%Z.
Proof.
  apply Zfloor_eq. destruct (Zfloor_bound x) as [H1 H2].
  rewrite plus_IZR. lra.
Qed.

(** Rounding half to even commutes with the addition of an even
    integer. *)
Lemma round_half_even_shift (x : R) (n : Z) :
  Z.even n = true ->
  round_half_even (x + IZR n) = (round_half_even x + n)%Z.
Proof.
  intros Hn. unfold round_half_even.
  rewrite Zfloor_shift, plus_IZR.
  replace (x + IZR n - (IZR (Zfloor x) + IZR n)) with (x - IZR (Zfloor x))
    by ring.
  destruct (Rlt_dec (x - IZR (Zfloor x)) (1 / 2)); [reflexivity|].
  destruct (Rlt_dec (1 / 2) (x - IZR (Zfloor x))); [lia|].
  rewrite Z.even_add, Hn.
  destruct (Z.even (Zfloor x)); simpl; lia.
Qed.

Lemma round_shift_180 (x : R) : round (x + 180) 1 = round x 1 + 180.
Proof.
  unfold round. simpl pow.
  replace ((x + 180) * (10 * 1)) with (x * (10 * 1) + IZR 1800) by lra.
  rewrite round_half_even_shift by reflexivity.
  rewrite plus_IZR. lra.
Qed.

(** Bearings half a turn apart give courses 180 apart modulo 360:
    neither the normalisation nor the rounding of lines 52-54 breaks
    it. *)
Lemma courses_of_opposite_bearings (b b' : R) :
  - 180 < b <= 180 ->
  (0 < b /\ b' = b - 180) \/ (b <= 0 /\ b' = b + 180) ->
  opposite 0 (round (fmod (b + 360) 360) 1) (round (fmod (b' + 360) 360) 1).
Proof.
  intros Hb [[Hpos ->]|[Hneg ->]].
  - rewrite (fmod_shift (b + 360)) by lra.
    destruct (Req_dec b 180) as [->|Hb'].
    + rewrite (fmod_shift (180 - 180 + 360)) by lra.
      replace (180 - 180 + 360 - 360) with 0 by lra.
      replace (180 + 360 - 360) with (IZR 1800 / 10) by lra.
      rewrite round_0, round_tenths.
      exists (- 1)%Z. rewrite Rabs_right; lra.
    + rewrite (fmod_small (b - 180 + 360)) by lra.
      replace (b - 180 + 360) with (b + 360 - 360 + 180) by lra.
      rewrite round_shift_180.
      exists 0%Z. rewrite Rabs_right; lra.
  - rewrite (fmod_shift (b + 180 + 360)) by lra.
    destruct (Req_dec b 0) as [->|Hb'].
    + rewrite (fmod_shift (0 + 360)) by lra.
      replace (0 + 360 - 360) with 0 by lra.
      replace (0 + 180 + 360 - 360) with (IZR 1800 / 10) by lra.
      rewrite round_0, round_tenths.
      exists 0%Z. rewrite Rabs_right; lra.
    + rewrite (fmod_small (b + 360)) by lra.
      replace (b + 360) with (b + 180 + 360 - 360 + 180) by lra.
      rewrite round_shift_180.
      exists (- 1)%Z. rewrite Rabs_right; lra.
Qed.


(** On a meridian, and between opposite latitudes, the point
    [(x, y)] whose angle is the bearing back is the opposite of the one
    of the bearing out. *)
Lemma bearing_deg_reversed (lat1 lon1 lat2 lon2 : R) :
  lon1 = lon2 \/ lat2 = - lat1 ->
  exists y x : R,
    y = sin ((lon2 - lon1) * DEG_TO_RAD) * cos (lat2 * DEG_TO_RAD) /\
    x = cos (lat1 * DEG_TO_RAD) * sin (lat2 * DEG_TO_RAD) -
        sin (lat1 * DEG_TO_RAD) * cos (lat2 * DEG_TO_RAD) *
        cos ((lon2 - lon1) * DEG_TO_RAD) /\
    bearing_deg lat1 lon1 lat2 lon2 = math.atan2 y x * RAD_TO_DEG /\
    bearing_deg lat2 lon2 lat1 lon1 = math.atan2 (- y) (- x) * RAD_TO_DEG.
Proof.
  intros H. eexists. eexists.
  split; [reflexivity|]. split; [reflexivity|]. split; [reflexivity|].
  unfold bearing_deg, math.sin, math.cos.
  replace ((lon1 - lon2) * DEG_TO_RAD)
    with (- ((lon2 - lon1) * DEG_TO_RAD)) by ring.
  rewrite sin_neg, cos_neg.
  destruct H as [->| ->].
  - replace ((lon2 - lon2) * DEG_TO_RAD) with 0 by ring.
    rewrite sin_0, cos_0. do 2 f_equal; ring.
  - replace (- lat1 * DEG_TO_RAD) with (- (lat1 * DEG_TO_RAD)) by ring.
    rewrite sin_neg, cos_neg. do 2 f_equal; ring.
Qed.

Lemma deg_180 : 180 * DEG_TO_RAD = PI.
Proof. unfold DEG_TO_RAD, math.pi. field. Qed.

(** The sine of an angle of [d] degrees, for [d] strictly between two
    consecutive multiples of 180 in (-360, 360). *)
Lemma sin_deg_sign (d : R) :
  0 < Rabs d < 360 -> Rabs d <> 180 ->
  (0 < sin (d * DEG_TO_RAD) /\ (0 < d < 180 \/ - 360 < d < - 180)) \/
  (sin (d * DEG_TO_RAD) < 0 /\ (- 180 < d < 0 \/ 180 < d < 360)).
Proof.
  intros [H0 H360] H180. pose proof deg_to_rad_pos as HD.
  pose proof deg_180 as HP. pose proof PI_RGT_0 as Hpi.
  assert (Hup : forall t, 0 < t < 180 -> 0 < sin (t * DEG_TO_RAD)).
  { intros t [Ht1 Ht2]. apply sin_gt_0; [now apply Rmult_lt_0_compat|].
    now apply deg_to_rad_lt_PI. }
  assert (Hdown : forall t, 180 < t < 360 -> sin (t * DEG_TO_RAD) < 0).
  { intros t [Ht1 Ht2]. apply sin_lt_0.
    - rewrite <- HP. now apply Rmult_lt_compat_r.
    - replace (2 * PI) with (360 * DEG_TO_RAD) by (rewrite <- HP; ring).
      now apply Rmult_lt_compat_r. }
  unfold Rabs in *. destruct (Rcase_abs d) as [Hd|Hd].
  - replace (d * DEG_TO_RAD) with (- (- d * DEG_TO_RAD)) by ring.
    rewrite sin_neg.
    destruct (Rlt_dec (- d) 180) as [Hlt|Hge].
    + right. pose proof (Hup (- d)). split; lra.
    + left. pose proof (Hdown (- d)). split; lra.
  - destruct (Rlt_dec d 180) as [Hlt|Hge].
    + left. pose proof (Hup d). split; lra.
    + right. pose proof (Hdown d). split; lra.
Qed.

Lemma true_course_equator_east (lon1 lon2 : R) :
  0 < sin ((lon2 - lon1) * DEG_TO_RAD) ->
  calculate_true_course 0 lon1 0 lon2 = ([], inr 90).
Proof.
  intros H.
  rewrite calculate_true_course_eq, bearing_deg_equator.
  rewrite atan2_east by assumption.
  replace (PI / 2 * RAD_TO_DEG + 360) with (90 + 360)
    by (unfold RAD_TO_DEG, math.pi; pose proof PI_RGT_0; field; lra).
  rewrite fmod_shift by lra.
  replace (90 + 360 - 360) with (IZR 900 / 10) by lra.
  rewrite round_tenths. do 2 f_equal. lra.
Qed.

Lemma true_course_equator_west (lon1 lon2 : R) :
  sin ((lon2 - lon1) * DEG_TO_RAD) < 0 ->
  calculate_true_course 0 lon1 0 lon2 = ([], inr 270).
Proof.
  intros H.
  rewrite calculate_true_course_eq, bearing_deg_equator.
  rewrite atan2_west by assumption.
  replace (- (PI / 2) * RAD_TO_DEG + 360) with (IZR 2700 / 10)
    by (unfold RAD_TO_DEG, math.pi; pose proof PI_RGT_0; field; lra).
  rewrite fmod_small by lra.
  rewrite round_tenths. do 2 f_equal. lra.
Qed.

Lemma opposite_weaken (tol c1 c2 : R) :
  0 <= tol -> opposite 0 c1 c2 -> opposite tol c1 c2.
Proof. intros Ht [k Hk]. exists k. lra. Qed.

(** Courses out and back from bearings whose points are opposite. *)
Lemma reciprocal_of_reversed (lat1 lon1 lat2 lon2 y x : R) :
  y <> 0 \/ x <> 0 ->
  bearing_deg lat1 lon1 lat2 lon2 = math.atan2 y x * RAD_TO_DEG ->
  bearing_deg lat2 lon2 lat1 lon1 = math.atan2 (- y) (- x) * RAD_TO_DEG ->
  opposite 0
    (round (fmod (bearing_deg lat1 lon1 lat2 lon2 + 360) 360) 1)
    (round (fmod (bearing_deg lat2 lon2 lat1 lon1 + 360) 360) 1).
Proof.
  intros Hne H1 H2. pose proof rad_to_deg_pos as HR.
  pose proof PI_RGT_0 as Hpi.
  assert (HPR : PI * RAD_TO_DEG = 180).
  { unfold RAD_TO_DEG, math.pi. field. lra. }
  pose proof (atan2_range y x) as [Hlo Hhi].
  apply courses_of_opposite_bearings.
  - rewrite H1. split.
    + apply Rmult_lt_compat_r with (r := RAD_TO_DEG) in Hlo; [lra|assumption].
    + apply Rmult_le_compat_r with (r := RAD_TO_DEG) in Hhi; lra.
  - rewrite H1, H2.
    destruct (atan2_opposite y x Hne) as [[Hs ->]|[Hs ->]].
    + left. split; [now apply Rmult_lt_0_compat|lra].
    + right. split; [|lra].
      apply Rmult_le_compat_r with (r := RAD_TO_DEG) in Hs; lra.
Qed.

(** C6, amended: for two distinct points on the same meridian
    (latitudes less than 180 degrees apart), or at opposite latitudes
    [lat] and [- lat] short of the poles, the equator included, with
    longitudes that differ by neither 0, 180 nor 360 degrees, the true
    course from A to B and the true course from B to A differ by
    exactly 180 degrees modulo 360, hence within any tolerance; on a
    meridian one is 0 and the other 180, on the equator one is 90 and
    the other 270. *)
Theorem reciprocal_courses (lat1 lon1 lat2 lon2 : R) :
  (lon1 = lon2 /\ lat1 <> lat2 /\ Rabs (lat2 - lat1) < 180) \/
  (lat2 = - lat1 /\ Rabs lat1 < 90 /\
   0 < Rabs (lon2 - lon1) < 360 /\ Rabs (lon2 - lon1) <> 180) ->
  exists c1 c2 : R,
    returns (calculate_true_course lat1 lon1 lat2 lon2) c1 /\
    returns (calculate_true_course lat2 lon2 lat1 lon1) c2 /\
    opposite 0 c1 c2 /\
    (forall tol : R, 0 <= tol -> opposite tol c1 c2) /\
    (lon1 = lon2 -> (c1 = 0 /\ c2 = 180) \/ (c1 = 180 /\ c2 = 0)) /\
    (lat1 = 0 -> lat2 = 0 ->
     (c1 = 90 /\ c2 = 270) \/ (c1 = 270 /\ c2 = 90)).
Proof.
  intros H. pose proof deg_to_rad_pos as HD.
  exists (round (fmod (bearing_deg lat1 lon1 lat2 lon2 + 360) 360) 1),
         (round (fmod (bearing_deg lat2 lon2 lat1 lon1 + 360) 360) 1).
  split; [apply calculate_true_course_eq|].
  split; [apply calculate_true_course_eq|].
  assert (Hopp : opposite 0
    (round (fmod (bearing_deg lat1 lon1 lat2 lon2 + 360) 360) 1)
    (round (fmod (bearing_deg lat2 lon2 lat1 lon1 + 360) 360) 1)).
  { destruct (bearing_deg_reversed lat1 lon1 lat2 lon2)
      as (y & x & Hy & Hx & H1 & H2).
    { destruct H as [[-> _]|[-> _]]; [now left|now right]. }
    apply (reciprocal_of_reversed lat1 lon1 lat2 lon2 y x); try assumption.
    destruct H as [(-> & Hne & Hd)|(-> & Hlat & Hlon & H180)].
    - right. rewrite Hx.
      replace ((lon2 - lon2) * DEG_TO_RAD) with 0 by ring.
      rewrite cos_0, Rmult_1_r.
      replace (cos (lat1 * DEG_TO_RAD) * sin (lat2 * DEG_TO_RAD) -
               sin (lat1 * DEG_TO_RAD) * cos (lat2 * DEG_TO_RAD))
        with (sin ((lat2 - lat1) * DEG_TO_RAD)).
      2:{ replace ((lat2 - lat1) * DEG_TO_RAD)
            with (lat2 * DEG_TO_RAD - lat1 * DEG_TO_RAD) by ring.
          rewrite sin_minus. ring. }
      assert (Hd0 : 0 < Rabs (lat2 - lat1) < 360).
      { split; [apply Rabs_pos_lt|]; lra. }
      assert (Hd1 : Rabs (lat2 - lat1) <> 180) by lra.
      destruct (sin_deg_sign (lat2 - lat1) Hd0 Hd1) as [[Hs _]|[Hs _]]; lra.
    - left. rewrite Hy.
      replace (- lat1 * DEG_TO_RAD) with (- (lat1 * DEG_TO_RAD)) by ring.
      rewrite cos_neg.
      assert (Hc : 0 < cos (lat1 * DEG_TO_RAD)).
      { apply cos_gt_0.
        - replace (- (PI / 2)) with (- 90 * DEG_TO_RAD)
            by (rewrite <- deg_90; ring).
          apply Rmult_lt_compat_r; [assumption|].
          unfold Rabs in Hlat. destruct (Rcase_abs lat1); lra.
        - rewrite <- deg_90. apply Rmult_lt_compat_r; [assumption|].
          unfold Rabs in Hlat. destruct (Rcase_abs lat1); lra. }
      destruct (sin_deg_sign (lon2 - lon1) Hlon H180) as [[Hs _]|[Hs _]];
        apply Rmult_integral_contrapositive_currified; lra. }
  split; [assumption|].
  split; [intros tol Ht; now apply opposite_weaken|].
  split.
  - intros ->. destruct H as [(_ & Hne & Hd)|(_ & _ & [Hlon _] & _)].
    + unfold Rabs in Hd. destruct (Rcase_abs (lat2 - lat1)) as [Hneg|Hpos].
      * right.
        assert (Hs : 0 < lat1 - lat2 < 180) by lra.
        assert (Hn : 0 < lat1 - lat2 < 180) by lra.
        apply true_course_due_south with (lon := lon2) in Hs.
        apply true_course_due_north with (lon := lon2) in Hn.
        rewrite calculate_true_course_eq in Hs, Hn.
        injection Hs as Hs. injection Hn as Hn. now split.
      * left.
        assert (Hn : 0 < lat2 - lat1 < 180) by lra.
        assert (Hs : 0 < lat2 - lat1 < 180) by lra.
        apply true_course_due_north with (lon := lon2) in Hn.
        apply true_course_due_south with (lon := lon2) in Hs.
        rewrite calculate_true_course_eq in Hs, Hn.
        injection Hs as Hs. injection Hn as Hn. now split.
    + exfalso. replace (lon2 - lon2) with 0 in Hlon by ring.
      rewrite Rabs_R0 in Hlon. lra.
  - intros -> ->. destruct H as [(_ & Hne & _)|(_ & _ & Hlon & H180)].
    + now contradiction Hne.
    + assert (Hrev : sin ((lon1 - lon2) * DEG_TO_RAD)
                     = - sin ((lon2 - lon1) * DEG_TO_RAD)).
      { replace ((lon1 - lon2) * DEG_TO_RAD)
          with (- ((lon2 - lon1) * DEG_TO_RAD)) by ring.
        apply sin_neg. }
      destruct (sin_deg_sign (lon2 - lon1) Hlon H180) as [[Hs _]|[Hs _]].
      * left.
        assert (Hs' : sin ((lon1 - lon2) * DEG_TO_RAD) < 0) by lra.
        apply true_course_equator_east in Hs.
        apply true_course_equator_west in Hs'.
        rewrite calculate_true_course_eq in Hs, Hs'.
        injection Hs as Hs. injection Hs' as Hs'. now split.
      * right.
        assert (Hs' : 0 < sin ((lon1 - lon2) * DEG_TO_RAD)) by lra.
        apply true_course_equator_west in Hs.
        apply true_course_equator_east in Hs'.
        rewrite calculate_true_course_eq in Hs, Hs'.
        injection Hs as Hs. injection Hs' as Hs'. now split.
Qed.

Lemma reciprocal_courses_witness :
  ((20 = 50 /\ 10 <> - 10 /\ Rabs (- 10 - 10) < 180) \/
   (- 10 = - 10 /\ Rabs 10 < 90 /\
    0 < Rabs (50 - 20) < 360 /\ Rabs (50 - 20) <> 180)) /\
  exists c1 c2 : R,
    returns (calculate_true_course 10 20 (- 10) 50) c1 /\
    returns (calculate_true_course (- 10) 50 10 20) c2 /\
    opposite 0 c1 c2 /\
    (forall tol : R, 0 <= tol -> opposite tol c1 c2) /\
    (20 = 50 -> (c1 = 0 /\ c2 = 180) \/ (c1 = 180 /\ c2 = 0)) /\
    (10 = 0 -> - 10 = 0 ->
     (c1 = 90 /\ c2 = 270) \/ (c1 = 270 /\ c2 = 90)).
Proof.
  assert (H : (20 = 50 /\ 10 <> - 10 /\ Rabs (- 10 - 10) < 180) \/
              (- 10 = - 10 /\ Rabs 10 < 90 /\
               0 < Rabs (50 - 20) < 360 /\ Rabs (50 - 20) <> 180)).
  { right. split; [reflexivity|].
    rewrite (Rabs_right 10) by lra. rewrite (Rabs_right (50 - 20)) by lra.
    lra. }
  exact (conj H (reciprocal_courses 10 20 (- 10) 50 H)).
Defined.

End Reciprocal.

(** ** More on the distance *)

Section Arcs.

Import MagneticCourseCalculator.

Lemma PI_upper : PI < 31416 / 10000.
Proof.
  pose proof (PI_2_3_7_ineq 2) as [_ Hhi].
  unfold sum_f_R0, tg_alt, PI_2_3_7_tg, Ratan_seq in Hhi.
  simpl in Hhi. lra.
Qed.

Lemma atan2_quadrant (y x : R) :
  0 <= y -> 0 <= x -> 0 <= math.atan2 y x <= PI / 2.
Proof.
  intros Hy Hx. pose proof PI_RGT_0 as Hpi.
  split; [now apply atan2_nonneg|].
  unfold math.atan2.
  destruct (Rlt_dec 0 x).
  - pose proof (atan_bound (y / x)). lra.
  - destruct (Rlt_dec x 0); [lra|].
    destruct (Rlt_dec 0 y); [lra|].
    destruct (Rlt_dec y 0); lra.
Qed.

Lemma atan2_sin_cos (t : R) :
  0 <= t <= PI / 2 -> math.atan2 (sin t) (cos t) = t.
Proof.
  intros [H0 H1]. pose proof PI_RGT_0 as Hpi.
  destruct (Req_dec_T t (PI / 2)) as [->|Hne].
  - rewrite sin_PI2, cos_PI2. apply atan2_east. lra.
  - assert (Hc : 0 < cos t) by (apply cos_gt_0; lra).
    rewrite atan2_pos_x by assumption.
    change (sin t / cos t) with (tan t). apply atan_tan. lra.
Qed.

(** When [a] is the squared sine of a half angle [t] between 0 and a
    right angle, the central angle computed from it is [2 t]. *)
Lemma central_angle (a t : R) :
  0 <= t <= PI / 2 -> a = (sin t)² ->
  2 * math.atan2 (sqrt a) (sqrt (1 - a)) = 2 * t.
Proof.
  intros Ht ->. pose proof PI_RGT_0 as Hpi.
  assert (Hs : 0 <= sin t) by (apply sin_ge_0; lra).
  assert (Hc : 0 <= cos t) by (apply cos_ge_0; lra).
  rewrite sqrt_Rsqr by assumption.
  replace (1 - (sin t)²) with ((cos t)²)
    by (pose proof (sin2_cos2 t); lra).
  rewrite sqrt_Rsqr by assumption.
  now rewrite atan2_sin_cos.
Qed.

Lemma sin_sqr_abs (x : R) : (sin (Rabs x))² = (sin x)².
Proof.
  unfold Rabs. destruct (Rcase_abs x); [|reflexivity].
  rewrite sin_neg. unfold Rsqr. ring.
Qed.

Lemma haversine_a_meridian (lat1 lat2 lon : R) :
  haversine_a lat1 lon lat2 lon =
  (sin (Rabs (lat2 - lat1) * DEG_TO_RAD / 2))².
Proof.
  pose proof deg_to_rad_pos as HD.
  replace (Rabs (lat2 - lat1) * DEG_TO_RAD / 2)
    with (Rabs ((lat2 - lat1) * DEG_TO_RAD / 2)).
  - rewrite sin_sqr_abs. unfold haversine_a, math.sin, math.cos.
    replace ((lon - lon) * DEG_TO_RAD / 2) with 0 by field.
    rewrite sin_0. unfold Rsqr. ring.
  - unfold Rdiv. rewrite !Rabs_mult.
    rewrite (Rabs_right DEG_TO_RAD), (Rabs_right (/ 2)) by lra. reflexivity.
Qed.

Lemma haversine_a_equator (lon1 lon2 : R) :
  haversine_a 0 lon1 0 lon2 =
  (sin (Rabs (lon2 - lon1) * DEG_TO_RAD / 2))².
Proof.
  pose proof deg_to_rad_pos as HD.
  replace (Rabs (lon2 - lon1) * DEG_TO_RAD / 2)
    with (Rabs ((lon2 - lon1) * DEG_TO_RAD / 2)).
  - rewrite sin_sqr_abs. unfold haversine_a, math.sin, math.cos.
    replace ((0 - 0) * DEG_TO_RAD / 2) with 0 by field.
    replace (0 * DEG_TO_RAD) with 0 by ring.
    rewrite sin_0, cos_0. unfold Rsqr. ring.
  - unfold Rdiv. rewrite !Rabs_mult.
    rewrite (Rabs_right DEG_TO_RAD), (Rabs_right (/ 2)) by lra. reflexivity.
Qed.

Lemma half_angle_range (d : R) :
  Rabs d <= 180 -> 0 <= Rabs d * DEG_TO_RAD / 2 <= PI / 2.
Proof.
  intros H. pose proof (Rabs_pos d) as H0. pose proof PI_RGT_0 as Hpi.
  unfold DEG_TO_RAD, math.pi. split.
  - assert (0 <= Rabs d * PI) by (apply Rmult_le_pos; lra). lra.
  - assert (Rabs d * PI <= 180 * PI) by (apply Rmult_le_compat_r; lra). lra.
Qed.

(** X4: along a meridian, and along the equator, the distance returned
    is the length of the arc: the Earth radius times the difference of
    the two latitudes (of the two longitudes) in radians, rounded to one
    decimal, as long as the difference is at most 180 degrees. *)
Theorem distance_is_arc_length (a b c : R) :
  Rabs (b - a) <= 180 ->
  let arc := round (EARTH_RADIUS_NM * (Rabs (b - a) * DEG_TO_RAD)) 1 in
  returns (calculate_distance a c b c) arc /\
  returns (calculate_distance 0 a 0 b) arc.
Proof.
  intros H arc. unfold returns. rewrite !calculate_distance_eq. cbv zeta.
  pose proof (half_angle_range (b - a) H) as Ht.
  rewrite (central_angle (haversine_a a c b c) _ Ht (haversine_a_meridian a b c)).
  rewrite (central_angle (haversine_a 0 a 0 b) _ Ht (haversine_a_equator a b)).
  unfold arc.
  replace (2 * (Rabs (b - a) * DEG_TO_RAD / 2))
    with (Rabs (b - a) * DEG_TO_RAD) by field.
  split; reflexivity.
Qed.

Lemma distance_is_arc_length_witness :
  Rabs (24 - 23) <= 180 /\
  returns (calculate_distance 23 120 24 120)
          (round (EARTH_RADIUS_NM * (Rabs (24 - 23) * DEG_TO_RAD)) 1) /\
  returns (calculate_distance 0 23 0 24)
          (round (EARTH_RADIUS_NM * (Rabs (24 - 23) * DEG_TO_RAD)) 1).
Proof.
  assert (H : Rabs (24 - 23) <= 180) by (rewrite Rabs_right; lra).
  exact (conj H (distance_is_arc_length 23 24 120 H)).
Defined.

(** X5: the distance from a point to itself is 0, returned by the
    [try] block itself and not by the error fallback. *)
Theorem distance_same_point (lat lon : R) :
  distance_try lat lon lat lon = ([], Next 0) /\
  returns (calculate_distance lat lon lat lon) 0.
Proof.
  assert (Ha : haversine_a lat lon lat lon = 0).
  { rewrite haversine_a_meridian.
    replace (Rabs (lat - lat) * DEG_TO_RAD / 2) with 0
      by (rewrite Rminus_diag, Rabs_R0; field).
    rewrite sin_0. apply Rsqr_0. }
  assert (Hd : EARTH_RADIUS_NM * (2 * math.atan2 (sqrt 0) (sqrt (1 - 0))) = 0).
  { rewrite sqrt_0, Rminus_0_r, sqrt_1, atan2_north by lra. ring. }
  split.
  - rewrite distance_try_eq. cbv zeta. rewrite Ha.
    unfold math.sqrt.
    destruct (Rlt_dec 0 0); [lra|]. rewrite bind_ret.
    destruct (Rlt_dec (1 - 0) 0); [lra|]. rewrite bind_ret.
    now rewrite Hd, round_0.
  - unfold returns. rewrite calculate_distance_eq. cbv zeta.
    now rewrite Ha, Hd, round_0.
Qed.

(** X6: the distance returned is never negative and never more than
    10819.4 nautical miles, half the circumference of the sphere of
    radius [EARTH_RADIUS_NM]. *)
Theorem distance_range (lat1 lon1 lat2 lon2 : R) :
  exists d : R,
    returns (calculate_distance lat1 lon1 lat2 lon2) d /\
    0 <= d <= 108194 / 10.
Proof.
  unfold returns. rewrite calculate_distance_eq. cbv zeta.
  eexists. split; [reflexivity|].
  pose proof (atan2_quadrant
                (sqrt (haversine_a lat1 lon1 lat2 lon2))
                (sqrt (1 - haversine_a lat1 lon1 lat2 lon2))
                (sqrt_pos _) (sqrt_pos _)) as [Hc0 Hc1].
  pose proof PI_upper as Hpi.
  set (c := math.atan2 _ _) in *.
  apply (round_range _ 0 (108194 / 10) 0 108194); try lra.
  unfold EARTH_RADIUS_NM. lra.
Qed.

End Arcs.

(** ** More on the wind triangle *)

Section WindTriangleRuns.

Import FlightTime.

Variable i : inputs.

Lemma wca_block_ratio_error :
  true_air_speed i <> 0 ->
  ratio i < -1 \/ 1 < ratio i ->
  wca_block i = ([too_strong], Return tt).
Proof.
  intros Htas Hr.
  destruct (Rlt_dec (asin_arg i) (-1)) as [H1|H1];
    [apply wca_block_domain_error; [assumption|now left]|].
  destruct (Rlt_dec 1 (asin_arg i)) as [H2|H2];
    [apply wca_block_domain_error; [assumption|now right]|].
  unfold wca_block.
  rewrite truediv_ok, bind_ret by assumption.
  unfold wind_dir_rad, true_course_rad, math.sin.
  fold (asin_arg i). rewrite asin_ok, bind_ret by lra.
  rewrite bind_ret. fold (ratio i).
  rewrite asin_domain_error by assumption.
  reflexivity.
Qed.

Lemma wca_block_cases :
  true_air_speed i <> 0 ->
  wca_block i = ([too_strong], Return tt) \/
  (-1 <= asin_arg i <= 1 /\ -1 <= ratio i <= 1 /\
   wca_block i =
   ([Num (round (asin (ratio i)) 9); Num (round (sin (delta i)) 9);
     Num (round (math.degrees (asin (asin_arg i))) 9)],
    Next (asin (asin_arg i)))).
Proof.
  intros Htas.
  destruct (Rlt_dec (asin_arg i) (-1)) as [H1|H1];
    [left; apply wca_block_domain_error; [assumption|now left]|].
  destruct (Rlt_dec 1 (asin_arg i)) as [H2|H2];
    [left; apply wca_block_domain_error; [assumption|now right]|].
  destruct (Rlt_dec (ratio i) (-1)) as [H3|H3];
    [left; apply wca_block_ratio_error; [assumption|now left]|].
  destruct (Rlt_dec 1 (ratio i)) as [H4|H4];
    [left; apply wca_block_ratio_error; [assumption|now right]|].
  right. split; [lra|]. split; [lra|].
  apply wca_block_ok; [assumption|lra|unfold ratio in *; lra].
Qed.

Lemma aligned_dec : {aligned i} + {~ aligned i}.
Proof. unfold aligned. apply Req_dec_T. Qed.

Lemma ground_speed_block_cases (wca_rad : R) :
  (exists ground_speed : R,
     ground_speed_block i wca_rad = ([], Next ground_speed)) \/
  (~ aligned i /\ sin wca_rad = 0 /\
   ground_speed_block i wca_rad = ([no_ground_speed], Return tt)).
Proof.
  destruct aligned_dec as [Ha|Ha].
  - left. eexists. now apply ground_speed_block_aligned.
  - destruct (Req_dec_T (sin wca_rad) 0) as [Hs|Hs].
    + right. split; [assumption|]. split; [assumption|].
      now apply ground_speed_block_zero_division.
    + left. eexists. now apply ground_speed_block_general.
Qed.

(** X7: an exception leaves [calculate_flight_time] exactly when the
    true air speed is zero: then the division on line 30 raises
    [ZeroDivisionError], which [except ValueError] does not catch, and
    nothing has been printed; with any other true air speed the function
    returns normally, whatever the wind, course and distance. *)
Theorem flight_time_exception_safety :
  (true_air_speed i = 0 /\
   calculate_flight_time_on i = ([], inl ZeroDivisionError)) \/
  (true_air_speed i <> 0 /\
   exists o : list line, calculate_flight_time_on i = (o, inr tt)).
Proof.
  destruct (Req_dec_T (true_air_speed i) 0) as [H0|Hne].
  - left. split; [assumption|].
    unfold calculate_flight_time_on, wca_block.
    rewrite H0, truediv_zero. reflexivity.
  - right. split; [assumption|].
    unfold calculate_flight_time_on.
    destruct (wca_block_cases Hne) as [Hw|(_ & _ & Hw)]; rewrite Hw;
      [eexists; reflexivity|].
    unfold bind at 1.
    destruct (ground_speed_block_cases (asin (asin_arg i)))
      as [[gs Hg]|(_ & _ & Hg)]; rewrite Hg; [|eexists; reflexivity].
    unfold bind at 1.
    destruct (Rle_dec gs 0) as [Hle|Hgt].
    + rewrite flight_time_block_low by assumption. eexists. reflexivity.
    + rewrite flight_time_block_ok by lra. eexists. reflexivity.
Qed.

(** X8: whenever the wind speed exceeds the true air speed in absolute
    value, the function reports that the wind is too strong and stops,
    also when the argument of [asin] on line 30 is within [-1, 1] and a
    wind correction angle exists: the [asin] of the bare ratio, taken on
    line 31 only to be printed, raises inside the same [try]. *)
Theorem ratio_diagnostic_stops_the_run :
  true_air_speed i <> 0 ->
  wind_speed i / true_air_speed i < -1 \/ 1 < wind_speed i / true_air_speed i ->
  calculate_flight_time_on i = ([too_strong], inr tt).
Proof.
  intros Htas Hr. unfold calculate_flight_time_on.
  now rewrite wca_block_ratio_error.
Qed.


(** X10: in the general branch, and away from a wind along the course
    (the sine of the wind correction angle, by which line 46 divides, is
    at least 0.001 in absolute value), the ground speed is the one of
    the wind triangle.  With [wca] the wind correction angle and [delta]
    the angle between wind direction and course, the crosswind is
    cancelled ([tas sin(wca) = wind_speed sin(delta)]), the ground speed
    is [tas cos(wca) - wind_speed cos(delta)], and it never exceeds the
    sum of the two speeds. *)
Theorem ground_speed_wind_triangle :
  true_air_speed i <> 0 -> -1 <= asin_arg i <= 1 ->
  1 / 1000 <= Rabs (asin_arg i) ->
  ~ aligned i ->
  let wca := asin (asin_arg i) in
  let ground_speed :=
    true_air_speed i * cos wca - wind_speed i * cos (delta i) in
  true_air_speed i * sin wca = wind_speed i * sin (delta i) /\
  ground_speed_block i wca = ([], Next ground_speed) /\
  Rabs ground_speed <= Rabs (true_air_speed i) + Rabs (wind_speed i).
Proof.
  intros Htas Harg Haway Hna wca ground_speed.
  assert (Hnz : asin_arg i <> 0).
  { intros H0. rewrite H0, Rabs_R0 in Haway. lra. }
  assert (Hsin : sin wca = asin_arg i) by now apply sin_asin.
  assert (Hcross : true_air_speed i * sin wca = wind_speed i * sin (delta i)).
  { rewrite Hsin. unfold asin_arg, delta. field. assumption. }
  split; [assumption|]. split.
  - rewrite ground_speed_block_general; [|assumption|rewrite Hsin; assumption].
    fold (delta i). do 2 f_equal. unfold ground_speed.
    rewrite sin_minus.
    replace (wind_speed i * (sin (delta i) * cos wca - cos (delta i) * sin wca))
      with (true_air_speed i * sin wca * cos wca -
            wind_speed i * cos (delta i) * sin wca)
      by (rewrite Hcross; ring).
    field. rewrite Hsin. assumption.
  - unfold ground_speed.
    eapply Rle_trans; [apply Rabs_triang|].
    rewrite Rabs_Ropp, !Rabs_mult.
    pose proof (COS_bound wca) as [Hc1 Hc2].
    pose proof (COS_bound (delta i)) as [Hd1 Hd2].
    assert (Rabs (cos wca) <= 1) by (apply Rabs_le; lra).
    assert (Rabs (cos (delta i)) <= 1) by (apply Rabs_le; lra).
    pose proof (Rabs_pos (true_air_speed i)).
    pose proof (Rabs_pos (wind_speed i)).
    apply Rplus_le_compat.
    + rewrite <- (Rmult_1_r (Rabs (true_air_speed i))) at 2.
      now apply Rmult_le_compat_l.
    + rewrite <- (Rmult_1_r (Rabs (wind_speed i))) at 2.
      now apply Rmult_le_compat_l.
Qed.

End WindTriangleRuns.

(** ** Whole runs of the flight-time function *)

Section Runs.

Import FlightTime.

Variable i : inputs.

(** The run that reaches the results. *)
Lemma run_results (ground_speed : R) :
  true_air_speed i <> 0 ->
  -1 <= asin_arg i <= 1 -> -1 <= ratio i <= 1 ->
  ground_speed_block i (asin (asin_arg i)) = ([], Next ground_speed) ->
  0 < ground_speed ->
  calculate_flight_time_on i =
  ([Num (round (asin (ratio i)) 9);
    Num (round (sin (delta i)) 9);
    Num (round (math.degrees (asin (asin_arg i))) 9);
    Text (newline ++ "✅ Results:");
    Field "WCA" (math.degrees (asin (asin_arg i)));
    Field "Ground Speed" ground_speed;
    Field "True Course" (true_course i);
    FieldZ "Estimated Flight Time"
           (Zceil (distance_nm i / ground_speed * 60))], inr tt).
Proof.
  intros Htas Harg Hratio Hg Hpos. unfold calculate_flight_time_on.
  rewrite wca_block_ok by assumption. unfold bind at 1.
  rewrite Hg. unfold bind at 1.
  rewrite flight_time_block_ok by assumption.
  reflexivity.
Qed.

(** X12: a flight time is printed only beside a positive ground speed,
    printed in the same run: no run prints a flight time after a failed
    or non-positive ground speed. *)
Theorem flight_time_needs_positive_speed (o : list line) (n : Z) :
  calculate_flight_time_on i = (o, inr tt) ->
  In (FieldZ "Estimated Flight Time" n) o ->
  exists ground_speed : R,
    In (Field "Ground Speed" ground_speed) o /\
    0 < ground_speed.
Proof.
  intros Hrun Hin.
  destruct (Req_dec_T (true_air_speed i) 0) as [H0|Hne].
  { unfold calculate_flight_time_on, wca_block in Hrun.
    rewrite H0, truediv_zero in Hrun. discriminate. }
  destruct (wca_block_cases i Hne) as [Hw|(Harg & Hratio & Hw)].
  { unfold calculate_flight_time_on in Hrun. rewrite Hw in Hrun.
    injection Hrun as <-. simpl in Hin. destruct Hin as [Hin|[]].
    discriminate. }
  destruct (ground_speed_block_cases i (asin (asin_arg i)))
    as [[gs Hg]|(_ & _ & Hg)].
  - destruct (Rle_dec gs 0) as [Hle|Hgt].
    + unfold calculate_flight_time_on in Hrun. rewrite Hw in Hrun.
      unfold bind at 1 in Hrun. rewrite Hg in Hrun.
      unfold bind at 1 in Hrun.
      rewrite flight_time_block_low in Hrun by assumption.
      injection Hrun as <-. simpl in Hin.
      repeat (destruct Hin as [Hin|Hin]; [discriminate|]). contradiction.
    + assert (Hpos : 0 < gs) by lra.
      rewrite (run_results gs Hne Harg Hratio Hg Hpos) in Hrun.
      injection Hrun as <-. exists gs.
      split; [simpl; tauto|assumption].
  - unfold calculate_flight_time_on in Hrun. rewrite Hw in Hrun.
    unfold bind at 1 in Hrun. rewrite Hg in Hrun.
    injection Hrun as <-. simpl in Hin.
    repeat (destruct Hin as [Hin|Hin]; [discriminate|]). contradiction.
Qed.

End Runs.

Section RunWitnesses.

Import FlightTime.

Lemma headwind_asin_arg : asin_arg headwind = 0.
Proof.
  unfold asin_arg, true_course. simpl.
  replace (math.radians 86 - math.radians (86 - 0)) with 0
    by (unfold math.radians; lra).
  rewrite sin_0. lra.
Qed.

Lemma headwind_run :
  calculate_flight_time_on headwind =
  ([Num (round (asin (ratio headwind)) 9);
    Num (round (sin (delta headwind)) 9);
    Num (round (math.degrees (asin (asin_arg headwind))) 9);
    Text (newline ++ "✅ Results:");
    Field "WCA" (math.degrees (asin (asin_arg headwind)));
    Field "Ground Speed" (120 - 90);
    Field "True Course" (true_course headwind);
    FieldZ "Estimated Flight Time"
           (Zceil (distance_nm headwind / (120 - 90) * 60))], inr tt).
Proof.
  apply run_results.
  - simpl. lra.
  - rewrite headwind_asin_arg. lra.
  - unfold ratio. simpl. lra.
  - now rewrite ground_speed_block_aligned by apply headwind_aligned.
  - lra.
Qed.

Lemma flight_time_needs_positive_speed_witness :
  exists (o : list line) (n : Z),
    calculate_flight_time_on headwind = (o, inr tt) /\
    In (FieldZ "Estimated Flight Time" n) o /\
    exists ground_speed : R,
      In (Field "Ground Speed" ground_speed) o /\
      0 < ground_speed.
Proof.
  eexists. eexists.
  assert (Hin : In (FieldZ "Estimated Flight Time"
                      (Zceil (distance_nm headwind / (120 - 90) * 60)))
                   [Num (round (asin (ratio headwind)) 9);
                    Num (round (sin (delta headwind)) 9);
                    Num (round (math.degrees (asin (asin_arg headwind))) 9);
                    Text (newline ++ "✅ Results:");
                    Field "WCA" (math.degrees (asin (asin_arg headwind)));
                    Field "Ground Speed" (120 - 90);
                    Field "True Course" (true_course headwind);
                    FieldZ "Estimated Flight Time"
                      (Zceil (distance_nm headwind / (120 - 90) * 60))])
    by (simpl; tauto).
  exact (conj headwind_run (conj Hin
           (flight_time_needs_positive_speed headwind _ _ headwind_run Hin))).
Defined.

Lemma overspeed_ratio : 1 < wind_speed overspeed / true_air_speed overspeed.
Proof. simpl. lra. Qed.

Lemma overspeed_asin_arg : -1 <= asin_arg overspeed <= 1.
Proof.
  unfold asin_arg, true_course. simpl.
  replace (math.radians 86 - math.radians (86 - 0)) with 0
    by (unfold math.radians; lra).
  rewrite sin_0. lra.
Qed.

Lemma ratio_diagnostic_stops_the_run_witness :
  true_air_speed overspeed <> 0 /\
  1 < wind_speed overspeed / true_air_speed overspeed /\
  -1 <= asin_arg overspeed <= 1 /\
  calculate_flight_time_on overspeed = ([too_strong], inr tt).
Proof.
  assert (Htas : true_air_speed overspeed <> 0) by (simpl; lra).
  exact (conj Htas (conj overspeed_ratio (conj overspeed_asin_arg
           (ratio_diagnostic_stops_the_run overspeed Htas
              (or_intror overspeed_ratio))))).
Defined.


Lemma sin_94_lower : 9 / 10 < sin (math.radians 94).
Proof.
  pose proof sin_94_pos as [Hs0 _]. pose proof sin_4_bounds as [H40 H41].
  pose proof (sin2_cos2 (math.radians 94)) as H1. unfold Rsqr in H1.
  assert (Hc : cos (math.radians 94) = - sin (math.radians 4)).
  { replace (math.radians 94) with (PI / 2 + math.radians 4)
      by (unfold math.radians; lra).
    pose proof (sin_cos (math.radians 4)). lra. }
  rewrite Hc in H1. nra.
Qed.

Lemma ground_speed_wind_triangle_witness :
  let wca := asin (asin_arg hardcoded) in
  let ground_speed :=
    true_air_speed hardcoded * cos wca -
    wind_speed hardcoded * cos (delta hardcoded) in
  true_air_speed hardcoded <> 0 /\
  -1 <= asin_arg hardcoded <= 1 /\
  1 / 1000 <= Rabs (asin_arg hardcoded) /\
  ~ aligned hardcoded /\
  true_air_speed hardcoded * sin wca =
    wind_speed hardcoded * sin (delta hardcoded) /\
  ground_speed_block hardcoded wca = ([], Next ground_speed) /\
  Rabs ground_speed <=
    Rabs (true_air_speed hardcoded) + Rabs (wind_speed hardcoded).
Proof.
  intros wca ground_speed.
  assert (Htas : true_air_speed hardcoded <> 0) by (simpl; lra).
  assert (Harg : -1 <= asin_arg hardcoded <= 1).
  { rewrite hardcoded_asin_arg. pose proof sin_94_pos. lra. }
  assert (Hnz : 1 / 1000 <= Rabs (asin_arg hardcoded)).
  { rewrite hardcoded_asin_arg. pose proof sin_94_lower.
    rewrite Rabs_right; lra. }
  exact (conj Htas (conj Harg (conj Hnz (conj hardcoded_not_aligned
           (ground_speed_wind_triangle hardcoded Htas Harg Hnz
              hardcoded_not_aligned))))).
Defined.

End RunWitnesses.

(** ** The input of coordinates *)

Section CoordinateInput.

Import Console ConsoleTerms.

Variable float : string -> option R.

Lemma get_coordinate_input_done (prompt_text : string) (stdin : list event)
    (o : list out) (v : R) (rest : list event) :
  get_coordinate_input float prompt_text stdin = (o, Done v rest) ->
  accepted v /\
  exists (skipped : list event) (s : string),
    stdin = skipped ++ Typed s :: rest /\
    float s = Some v /\
    Forall (rejected float) skipped /\
    length o = (2 * length skipped + 1)%nat.
Proof.
  revert o. induction stdin as [|e stdin IH]; intros o H; simpl in H.
  - discriminate.
  - destruct e as [s|]; [|discriminate].
    destruct (float s) as [x|] eqn:Hs.
    + destruct (Rlt_dec 180 (Rabs x)) as [Hbig|Hok].
      * destruct (get_coordinate_input float prompt_text stdin) as [o' r] eqn:Hrec.
        injection H as <- ->.
        destruct (IH o' eq_refl) as (Ha & skipped & s' & -> & Hs' & Hall & Hlen).
        split; [assumption|].
        exists (Typed s :: skipped), s'. repeat split; try assumption.
        -- constructor; [simpl; rewrite Hs; assumption|assumption].
        -- simpl. rewrite Hlen. lia.
      * injection H as <- <- <-.
        split; [unfold accepted; lra|].
        exists [], s. repeat split; [assumption|constructor].
    + destruct (get_coordinate_input float prompt_text stdin) as [o' r] eqn:Hrec.
      injection H as <- ->.
      destruct (IH o' eq_refl) as (Ha & skipped & s' & -> & Hs' & Hall & Hlen).
      split; [assumption|].
      exists (Typed s :: skipped), s'. repeat split; try assumption.
      * constructor; [simpl; rewrite Hs; exact I|assumption].
      * simpl. rewrite Hlen. lia.
Qed.

Lemma get_coordinate_input_cases (prompt_text : string) (stdin : list event) :
  exists o : list out,
    (exists (v : R) (rest : list event),
       get_coordinate_input float prompt_text stdin = (o, Done v rest)) \/
    get_coordinate_input float prompt_text stdin = (o, Exit 0) \/
    get_coordinate_input float prompt_text stdin = (o, Fail EOFError []).
Proof.
  induction stdin as [|e stdin IH]; simpl.
  - eexists. right. right. reflexivity.
  - destruct e as [s|]; [|eexists; right; left; reflexivity].
    destruct IH as [o IH].
    destruct (float s) as [x|].
    + destruct (Rlt_dec 180 (Rabs x)).
      * destruct IH as [(v & rest & ->)|[->| ->]]; eexists;
          [left; eexists; eexists; reflexivity
          |right; left; reflexivity|right; right; reflexivity].
      * eexists. left. eexists. eexists. reflexivity.
    + destruct IH as [(v & rest & ->)|[->| ->]]; eexists;
        [left; eexists; eexists; reflexivity
        |right; left; reflexivity|right; right; reflexivity].
Qed.

(** X13: when [get_coordinate_input] returns, the value is within 180
    of zero, it is what [float] read on the first line that was not
    rejected, every line before it was rejected (unreadable, or a number
    beyond 180), the input left starts right after it, and the output
    is, for each rejected line in turn, the prompt followed by the
    warning for that line (the format warning for an unreadable line,
    the range warning for a number beyond 180), then the prompt once
    more: the prompt once per line taken, one warning per rejected
    line. *)
Theorem get_coordinate_input_returns (prompt_text : string)
    (stdin : list event) (o : list out) (v : R) (rest : list event) :
  get_coordinate_input float prompt_text stdin = (o, Done v rest) ->
  accepted v /\
  exists (skipped : list event) (s : string),
    stdin = skipped ++ Typed s :: rest /\
    float s = Some v /\
    Forall (rejected float) skipped /\
    o = retries float prompt_text skipped ++ [Ask prompt_text] /\
    length o = (2 * length skipped + 1)%nat.
Proof.
  revert o. induction stdin as [|e stdin IH]; intros o H; simpl in H.
  - discriminate.
  - destruct e as [s|]; [|discriminate].
    destruct (float s) as [x|] eqn:Hs.
    + destruct (Rlt_dec 180 (Rabs x)) as [Hbig|Hok].
      * destruct (get_coordinate_input float prompt_text stdin)
          as [o' r] eqn:Hrec.
        injection H as <- ->.
        destruct (IH o' eq_refl)
          as (Ha & skipped & s' & -> & Hs' & Hall & Ho & Hlen).
        split; [assumption|].
        exists (Typed s :: skipped), s'.
        split; [reflexivity|]. split; [assumption|].
        split; [constructor; [simpl; rewrite Hs; assumption|assumption]|].
        split.
        -- unfold retries. simpl. rewrite Hs. now rewrite Ho.
        -- simpl. rewrite Hlen. lia.
      * injection H as <- <- <-.
        split; [unfold accepted; lra|].
        exists [], s. repeat split; [assumption|constructor].
    + destruct (get_coordinate_input float prompt_text stdin)
        as [o' r] eqn:Hrec.
      injection H as <- ->.
      destruct (IH o' eq_refl)
        as (Ha & skipped & s' & -> & Hs' & Hall & Ho & Hlen).
      split; [assumption|].
      exists (Typed s :: skipped), s'.
      split; [reflexivity|]. split; [assumption|].
      split; [constructor; [simpl; rewrite Hs; exact I|assumption]|].
      split.
      * unfold retries. simpl. rewrite Hs. now rewrite Ho.
      * simpl. rewrite Hlen. lia.
Qed.

(** X14: [get_coordinate_input] ends in one of three ways: it returns
    an accepted value; it exits with code 0, on an interrupt; or it
    raises [EOFError], when the input ends before an accepted value was
    typed.  [ValueError] and [KeyboardInterrupt] never leave it. *)
Theorem get_coordinate_input_endings (prompt_text : string)
    (stdin : list event) :
  exists o : list out,
    (exists (v : R) (rest : list event),
       get_coordinate_input float prompt_text stdin = (o, Done v rest) /\
       accepted v) \/
    get_coordinate_input float prompt_text stdin = (o, Exit 0) \/
    get_coordinate_input float prompt_text stdin = (o, Fail EOFError []).
Proof.
  destruct (get_coordinate_input_cases prompt_text stdin)
    as [o [(v & rest & H)|[H|H]]]; exists o.
  - left. exists v, rest. split; [assumption|].
    now destruct (get_coordinate_input_done _ _ _ _ _ H).
  - right. now left.
  - right. now right.
Qed.

End CoordinateInput.

(** ** The interactive session *)

(** An output made of prints and of outputs that echo no point echoes
    no point. *)
Ltac no_point :=
  let H := fresh "H" in
  intros ? ? ? H;
  repeat first [progress rewrite in_app_iff in H | progress simpl in H];
  repeat match type of H with
         | _ \/ _ => destruct H as [H|H]
         | False => destruct H
         | _ = _ => discriminate H
         end;
  match goal with
  | Hp : forall _ _ _, ~ In _ ?o |- _ => exact (Hp _ _ _ H)
  end.


Section Session.

Import MagneticCourseCalculator Console ConsoleTerms.

Variable float : string -> option R.

Lemma get_coordinate_input_no_point (prompt_text : string)
    (stdin : list event) (label : string) (lat lon : R) :
  ~ In (Point label lat lon) (fst (get_coordinate_input float prompt_text stdin)).
Proof.
  induction stdin as [|e stdin IH]; simpl.
  - intros [H|[]]. discriminate.
  - destruct e as [s|]; [|simpl; intros [H|[H|[]]]; discriminate].
    destruct (get_coordinate_input float prompt_text stdin) as [o r].
    destruct (float s) as [x|]; [destruct (Rlt_dec 180 (Rabs x))|]; simpl;
      simpl in IH; intros H;
      repeat (destruct H as [H|H]; [discriminate|]); auto.
Qed.

Lemma get_coordinate_input_shorter (prompt_text : string)
    (stdin : list event) (o : list out) (v : R) (rest : list event) :
  get_coordinate_input float prompt_text stdin = (o, Done v rest) ->
  (length rest < length stdin)%nat.
Proof.
  intros H.
  destruct (get_coordinate_input_done float _ _ _ _ _ H)
    as (_ & skipped & s & -> & _).
  rewrite length_app. simpl. lia.
Qed.

(** The ways the entry of the four coordinates can end. *)
Lemma read_route_cases (stdin : list event) :
  exists o : list out,
    (forall label lat lon, ~ In (Point label lat lon) o) /\
    ((exists (lat1 lon1 lat2 lon2 : R) (rest : list event),
        read_route float stdin = (o, Done (lat1, lon1, lat2, lon2) rest) /\
        (accepted lat1 /\ accepted lon1 /\ accepted lat2 /\ accepted lon2) /\
        (length rest + 4 <= length stdin)%nat) \/
     read_route float stdin = (o, Exit 0) \/
     read_route float stdin = (o, Fail EOFError [])).
Proof.
  unfold read_route, io_bind, say, io_ret.
  pose proof (get_coordinate_input_no_point "  Latitude:  " stdin) as Hp1.
  destruct (get_coordinate_input_cases float "  Latitude:  " stdin)
    as [o1 [(lat1 & r1 & H1)|[H1|H1]]]; rewrite H1 in *; simpl in Hp1;
    try (eexists; split;
         [|solve [right; left; reflexivity|right; right; reflexivity]];
         no_point).
  pose proof (get_coordinate_input_no_point "  Longitude: " r1) as Hp2.
  destruct (get_coordinate_input_cases float "  Longitude: " r1)
    as [o2 [(lon1 & r2 & H2)|[H2|H2]]]; rewrite H2 in *; simpl in Hp2;
    try (eexists; split;
         [|solve [right; left; reflexivity|right; right; reflexivity]];
         no_point).
  pose proof (get_coordinate_input_no_point "  Latitude:  " r2) as Hp3.
  destruct (get_coordinate_input_cases float "  Latitude:  " r2)
    as [o3 [(lat2 & r3 & H3)|[H3|H3]]]; rewrite H3 in *; simpl in Hp3;
    try (eexists; split;
         [|solve [right; left; reflexivity|right; right; reflexivity]];
         no_point).
  pose proof (get_coordinate_input_no_point "  Longitude: " r3) as Hp4.
  destruct (get_coordinate_input_cases float "  Longitude: " r3)
    as [o4 [(lon2 & r4 & H4)|[H4|H4]]]; rewrite H4 in *; simpl in Hp4;
    try (eexists; split;
         [|solve [right; left; reflexivity|right; right; reflexivity]];
         no_point).
  pose proof (get_coordinate_input_done float _ _ _ _ _ H1) as [A1 _].
  pose proof (get_coordinate_input_done float _ _ _ _ _ H2) as [A2 _].
  pose proof (get_coordinate_input_done float _ _ _ _ _ H3) as [A3 _].
  pose proof (get_coordinate_input_done float _ _ _ _ _ H4) as [A4 _].
  pose proof (get_coordinate_input_shorter _ _ _ _ _ H1) as L1.
  pose proof (get_coordinate_input_shorter _ _ _ _ _ H2) as L2.
  pose proof (get_coordinate_input_shorter _ _ _ _ _ H3) as L3.
  pose proof (get_coordinate_input_shorter _ _ _ _ _ H4) as L4.
  eexists. split;
    [|left; exists lat1, lon1, lat2, lon2, r4;
      split; [reflexivity|split; [tauto|lia]]].
  no_point.
Qed.

Lemma banner_done (stdin : list event) :
  exists o : list out,
    banner stdin = (o, Done tt stdin) /\
    (forall label lat lon, ~ In (Point label lat lon) o).
Proof.
  eexists. split; [reflexivity|].
  intros l a b H. simpl in H.
  repeat (destruct H as [H|H]; [discriminate|]). destruct H.
Qed.

(** The computation and display of a route always complete, and show
    what the calculator returns. *)
Lemma show_route_done (lat1 lon1 lat2 lon2 : R) (stdin : list event) :
  exists true_course magnetic_course distance : R,
    returns (calculate_magnetic_course lat1 lon1 lat2 lon2)
            (true_course, magnetic_course) /\
    returns (calculate_distance lat1 lon1 lat2 lon2) distance /\
    show_route lat1 lon1 lat2 lon2 stdin =
    ([Say (Text (nl ++ string_mul "=" 50));
      Say (Text "📊 CALCULATION RESULTS");
      Say (Text (string_mul "=" 50));
      Point "From" lat1 lon1;
      Point "To" lat2 lon2;
      Say (Text (string_mul "-" 50));
      Say (Field "Distance" distance);
      Say (Field "True Course" true_course);
      Say (Field "Magnetic Course" magnetic_course);
      Say (Field "Magnetic Var" MAGNETIC_VARIATION);
      Say (Text (string_mul "=" 50))], Done tt stdin).
Proof.
  unfold show_route, returns.
  rewrite calculate_magnetic_course_eq, calculate_distance_eq. cbv zeta.
  eexists. eexists. eexists.
  split; [reflexivity|]. split; reflexivity.
Qed.

Lemma main_loop_S (fuel : nat) (stdin : list event) :
  main_loop float (S fuel) stdin =
  io_bind banner (fun _ =>
    io_try
      (io_bind (read_route float) (fun route =>
       let '(lat1, lon1, lat2, lon2) := route in
       io_bind (show_route lat1 lon1 lat2 lon2) (fun _ =>
       io_bind (show (Ask (nl ++ "📝 Calculate another route? (y/n): "))) (fun _ =>
       io_bind input (fun answer =>
       if answers_yes answer
       then io_bind (say nl) (fun _ => main_loop float fuel)
       else say (nl ++ "👋 Thank you for using Magnetic Course Calculator!"))))))
      main_except) stdin.
Proof. reflexivity. Qed.

(** With a budget above the number of events, a session ends well and
    echoes accepted coordinates only. *)
Lemma main_loop_spec (fuel : nat) :
  forall stdin : list event,
    (length stdin < fuel)%nat ->
    exists (o : list out) (r : result unit),
      main_loop float fuel stdin = (o, r) /\ ends_well r /\ points_accepted o.
Proof.
  induction fuel as [|fuel IH]; intros stdin Hlen; [lia|].
  rewrite main_loop_S. unfold io_bind at 1.
  destruct (banner_done stdin) as (ob & -> & Hb).
  unfold io_try, io_bind at 1.
  destruct (read_route_cases stdin)
    as (orr & Hr & [(lat1 & lon1 & lat2 & lon2 & rest & -> & Hacc & Hrest)|[-> | ->]]).
  - unfold io_bind at 1.
    destruct (show_route_done lat1 lon1 lat2 lon2 rest)
      as (tc & mc & d & _ & _ & ->).
    unfold io_bind at 1, show at 1. unfold io_bind at 1, input.
    destruct rest as [|[s|] rest'].
    + eexists. eexists. split; [reflexivity|]. split; [exact I|].
      intros l a b H.
      repeat first [progress rewrite in_app_iff in H | progress simpl in H].
      repeat match type of H with
             | _ \/ _ => destruct H as [H|H]
             | False => destruct H
             | Point _ _ _ = Point _ _ _ => injection H as _ <- <-; tauto
             | _ = _ => discriminate H
             end;
        solve [exfalso; eapply Hb; eassumption
              |exfalso; eapply Hr; eassumption].
    + destruct (answers_yes s).
      * unfold io_bind at 1, say at 1.
        simpl in Hrest.
        destruct (IH rest' ltac:(lia)) as (oi & ri & -> & Hri & Hpi).
        destruct ri as [[] rest''|code|e rest''|]; simpl in Hri;
          try contradiction;
          (eexists; eexists; split; [reflexivity|]; split; [assumption|]);
          intros l a b H;
          repeat first [progress rewrite in_app_iff in H | progress simpl in H];
          repeat match type of H with
                 | _ \/ _ => destruct H as [H|H]
                 | False => destruct H
                 | Point _ _ _ = Point _ _ _ => injection H as _ <- <-; tauto
                 | _ = _ => discriminate H
                 end;
          solve [exfalso; eapply Hb; eassumption
                |exfalso; eapply Hr; eassumption
                |eapply Hpi; eassumption].
      * eexists. eexists. split; [reflexivity|]. split; [exact I|].
        intros l a b H.
        repeat first [progress rewrite in_app_iff in H | progress simpl in H].
        repeat match type of H with
               | _ \/ _ => destruct H as [H|H]
               | False => destruct H
               | Point _ _ _ = Point _ _ _ => injection H as _ <- <-; tauto
               | _ = _ => discriminate H
               end;
          solve [exfalso; eapply Hb; eassumption
                |exfalso; eapply Hr; eassumption].
    + eexists. eexists. split; [reflexivity|]. split; [exact I|].
      intros l a b H.
      repeat first [progress rewrite in_app_iff in H | progress simpl in H].
      repeat match type of H with
             | _ \/ _ => destruct H as [H|H]
             | False => destruct H
             | Point _ _ _ = Point _ _ _ => injection H as _ <- <-; tauto
             | _ = _ => discriminate H
             end;
        solve [exfalso; eapply Hb; eassumption
              |exfalso; eapply Hr; eassumption].
  - eexists. eexists. split; [reflexivity|]. split; [reflexivity|].
    intros l a b H.
    repeat first [progress rewrite in_app_iff in H | progress simpl in H].
    repeat match type of H with
           | _ \/ _ => destruct H as [H|H]
           | False => destruct H
           | _ = _ => discriminate H
           end;
      solve [exfalso; eapply Hb; eassumption
            |exfalso; eapply Hr; eassumption].
  - eexists. eexists. split; [reflexivity|]. split; [exact I|].
    intros l a b H.
    repeat first [progress rewrite in_app_iff in H | progress simpl in H].
    repeat match type of H with
           | _ \/ _ => destruct H as [H|H]
           | False => destruct H
           | _ = _ => discriminate H
           end;
      solve [exfalso; eapply Hb; eassumption
            |exfalso; eapply Hr; eassumption].
Qed.

End Session.

(** ** What a session guarantees *)

Section SessionGuarantees.

Import MagneticCourseCalculator Console ConsoleTerms.

Variable float : string -> option R.

(** X15: whatever is typed, and however the typing ends, [main] ends
    by returning or by [exit(0)]: no exception leaves it, and the budget
    of the model for its calls of itself is never exhausted. *)
Theorem main_ends_well (stdin : list event) :
  exists o : list out,
    (exists rest : list event, main float stdin = (o, Done tt rest)) \/
    main float stdin = (o, Exit 0).
Proof.
  unfold main.
  destruct (main_loop_spec float (S (length stdin)) stdin ltac:(lia))
    as (o & r & -> & Hr & _).
  exists o. destruct r as [[] rest|code|e rest|]; simpl in Hr;
    try contradiction.
  - left. now exists rest.
  - right. now subst code.
Qed.

(** X16: every pair of coordinates [main] echoes on its "From" and "To"
    lines was accepted by [get_coordinate_input]: both numbers are within
    180 of zero. *)
Theorem main_echoes_accepted_points (stdin : list event)
    (label : string) (lat lon : R) :
  In (Point label lat lon) (fst (main float stdin)) ->
  accepted lat /\ accepted lon.
Proof.
  unfold main.
  destruct (main_loop_spec float (S (length stdin)) stdin ltac:(lia))
    as (o & r & -> & _ & Hp).
  apply Hp.
Qed.

Lemma get_coordinate_input_first (prompt_text s : string) (v : R)
    (rest : list event) :
  float s = Some v -> accepted v ->
  get_coordinate_input float prompt_text (Typed s :: rest) =
  ([Ask prompt_text], Done v rest).
Proof.
  intros Hs Hv. simpl. rewrite Hs.
  destruct (Rlt_dec 180 (Rabs v)); [unfold accepted in Hv; lra|reflexivity].
Qed.

Lemma single_route_session (a b c d answer : string)
    (lat1 lon1 lat2 lon2 : R) (rest : list event) :
  float a = Some lat1 -> float b = Some lon1 ->
  float c = Some lat2 -> float d = Some lon2 ->
  accepted lat1 -> accepted lon1 -> accepted lat2 -> accepted lon2 ->
  answers_yes answer = false ->
  exists (o : list out) (true_course magnetic_course distance : R),
    main float (Typed a :: Typed b :: Typed c :: Typed d ::
                Typed answer :: rest) = (o, Done tt rest) /\
    returns (calculate_magnetic_course lat1 lon1 lat2 lon2)
            (true_course, magnetic_course) /\
    returns (calculate_distance lat1 lon1 lat2 lon2) distance /\
    In (Point "From" lat1 lon1) o /\
    In (Point "To" lat2 lon2) o /\
    In (Say (Field "Distance" distance)) o /\
    In (Say (Field "True Course" true_course)) o /\
    In (Say (Field "Magnetic Course" magnetic_course)) o.
Proof.
  intros Ha Hb Hc Hd A1 A2 A3 A4 Hno.
  unfold main. rewrite main_loop_S.
  unfold io_bind at 1.
  destruct (banner_done
              (Typed a :: Typed b :: Typed c :: Typed d :: Typed answer :: rest))
    as (ob & -> & _).
  unfold io_try, io_bind at 1. unfold read_route.
  unfold io_bind at 1, say at 1.
  unfold io_bind at 1. rewrite (get_coordinate_input_first _ _ _ _ Ha A1).
  unfold io_bind at 1. rewrite (get_coordinate_input_first _ _ _ _ Hb A2).
  unfold io_bind at 1, say at 1.
  unfold io_bind at 1. rewrite (get_coordinate_input_first _ _ _ _ Hc A3).
  unfold io_bind at 1. rewrite (get_coordinate_input_first _ _ _ _ Hd A4).
  unfold io_ret.
  unfold io_bind at 1.
  destruct (show_route_done lat1 lon1 lat2 lon2 (Typed answer :: rest))
    as (tc & mc & dist & Hm & Hdist & ->).
  unfold io_bind at 1, show at 1. unfold io_bind at 1, input.
  rewrite Hno. unfold say.
  eexists. exists tc, mc, dist.
  split; [reflexivity|]. split; [assumption|]. split; [assumption|].
  repeat split; rewrite !in_app_iff; simpl; tauto.
Qed.

(** X17: a session in which four lines are read as accepted numbers and
    the answer to "another route?" does not start with y or Y: [main]
    returns, leaves the rest of the input untouched, echoes the two
    points, and shows the distance, the true course and the magnetic
    course that the calculator returns for them. *)
Theorem main_single_route (a b c d answer : string)
    (lat1 lon1 lat2 lon2 : R) (rest : list event) :
  float a = Some lat1 -> float b = Some lon1 ->
  float c = Some lat2 -> float d = Some lon2 ->
  accepted lat1 -> accepted lon1 -> accepted lat2 -> accepted lon2 ->
  answers_yes answer = false ->
  exists (o : list out) (true_course magnetic_course distance : R),
    main float (Typed a :: Typed b :: Typed c :: Typed d ::
                Typed answer :: rest) = (o, Done tt rest) /\
    returns (calculate_magnetic_course lat1 lon1 lat2 lon2)
            (true_course, magnetic_course) /\
    returns (calculate_distance lat1 lon1 lat2 lon2) distance /\
    In (Point "From" lat1 lon1) o /\
    In (Point "To" lat2 lon2) o /\
    In (Say (Field "Distance" distance)) o /\
    In (Say (Field "True Course" true_course)) o /\
    In (Say (Field "Magnetic Course" magnetic_course)) o.
Proof. apply single_route_session. Qed.

End SessionGuarantees.

Section SessionWitnesses.

Import MagneticCourseCalculator Console ConsoleTerms.

Lemma accepted_below (v : R) : 0 <= v <= 180 -> accepted v.
Proof. intros H. unfold accepted. rewrite Rabs_right; lra. Qed.

Lemma sample_retry :
  get_coordinate_input sample_float "  Latitude:  "
    [Typed "abc"; Typed "999"; Typed "23.9739"; Typed "n"] =
  ([Ask "  Latitude:  "; Say (Text invalid_format);
    Ask "  Latitude:  "; Say (Text invalid_coordinate);
    Ask "  Latitude:  "], Done (239739 / 10000) [Typed "n"]).
Proof.
  simpl.
  destruct (Rlt_dec 180 (Rabs 999)) as [_|H];
    [|exfalso; apply H; rewrite Rabs_right; lra].
  destruct (Rlt_dec 180 (Rabs (239739 / 10000))) as [H|_];
    [rewrite Rabs_right in H; lra|reflexivity].
Qed.

Lemma get_coordinate_input_returns_witness :
  get_coordinate_input sample_float "  Latitude:  "
    [Typed "abc"; Typed "999"; Typed "23.9739"; Typed "n"] =
  ([Ask "  Latitude:  "; Say (Text invalid_format);
    Ask "  Latitude:  "; Say (Text invalid_coordinate);
    Ask "  Latitude:  "], Done (239739 / 10000) [Typed "n"]) /\
  accepted (239739 / 10000) /\
  exists (skipped : list event) (s : string),
    [Typed "abc"; Typed "999"; Typed "23.9739"; Typed "n"] =
      skipped ++ Typed s :: [Typed "n"] /\
    sample_float s = Some (239739 / 10000) /\
    Forall (rejected sample_float) skipped /\
    [Ask "  Latitude:  "; Say (Text invalid_format);
     Ask "  Latitude:  "; Say (Text invalid_coordinate);
     Ask "  Latitude:  "] =
      retries sample_float "  Latitude:  " skipped ++ [Ask "  Latitude:  "] /\
    length [Ask "  Latitude:  "; Say (Text invalid_format);
            Ask "  Latitude:  "; Say (Text invalid_coordinate);
            Ask "  Latitude:  "] = (2 * length skipped + 1)%nat.
Proof.
  exact (conj sample_retry
           (get_coordinate_input_returns sample_float _ _ _ _ _ sample_retry)).
Defined.

Lemma main_echoes_accepted_points_witness :
  In (Point "From" (239739 / 10000) (120982 / 1000))
     (fst (main sample_float
             [Typed "23.9739"; Typed "120.9820"; Typed "24.1477";
              Typed "120.6736"; Typed "n"])) /\
  accepted (239739 / 10000) /\ accepted (120982 / 1000).
Proof.
  assert (Hin : In (Point "From" (239739 / 10000) (120982 / 1000))
     (fst (main sample_float
             [Typed "23.9739"; Typed "120.9820"; Typed "24.1477";
              Typed "120.6736"; Typed "n"]))).
  { destruct (single_route_session sample_float
                "23.9739" "120.9820" "24.1477" "120.6736" "n"
                (239739 / 10000) (120982 / 1000)
                (241477 / 10000) (1206736 / 10000) []
                eq_refl eq_refl eq_refl eq_refl)
      as (o & tc & mc & dist & -> & _ & _ & Hfrom & _);
      try (apply accepted_below; lra); [reflexivity|exact Hfrom]. }
  exact (conj Hin (main_echoes_accepted_points sample_float _ _ _ _ Hin)).
Defined.

Lemma main_single_route_witness :
  exists (o : list out) (true_course magnetic_course distance : R),
    main sample_float
      [Typed "23.9739"; Typed "120.9820"; Typed "24.1477";
       Typed "120.6736"; Typed "n"] = (o, Done tt []) /\
    returns (calculate_magnetic_course (239739 / 10000) (120982 / 1000)
               (241477 / 10000) (1206736 / 10000))
            (true_course, magnetic_course) /\
    returns (calculate_distance (239739 / 10000) (120982 / 1000)
               (241477 / 10000) (1206736 / 10000)) distance /\
    In (Point "From" (239739 / 10000) (120982 / 1000)) o /\
    In (Point "To" (241477 / 10000) (1206736 / 10000)) o /\
    In (Say (Field "Distance" distance)) o /\
    In (Say (Field "True Course" true_course)) o /\
    In (Say (Field "Magnetic Course" magnetic_course)) o.
Proof.
  apply (main_single_route sample_float
           "23.9739" "120.9820" "24.1477" "120.6736" "n"
           (239739 / 10000) (120982 / 1000)
           (241477 / 10000) (1206736 / 10000) []
           eq_refl eq_refl eq_refl eq_refl);
    try (apply accepted_below; lra).
  reflexivity.
Defined.

End SessionWitnesses.

(** ** Another route *)

Section AnotherRoute.

Import MagneticCourseCalculator Console ConsoleTerms.

Variable float : string -> option R.

(** A run of the body of [main] either does not reach the call of
    [main] by itself, or hands it the input left after at least five
    events and depends on it through its outcome there only. *)
Lemma main_body_depends (stdin : list event) :
  (exists res : list out * result unit,
     forall k : io unit, main_body float k stdin = res) \/
  (exists rest : list event,
     (length rest + 5 <= length stdin)%nat /\
     forall k : io unit,
       main_body float k stdin = main_body float (fun _ => k rest) stdin).
Proof.
  destruct (banner_done stdin) as (ob & Hb & _).
  destruct (read_route_cases float stdin)
    as (orr & _ & [(lat1 & lon1 & lat2 & lon2 & rest & Hrr & _ & Hrest)
                  |[Hrr|Hrr]]);
    [|left; eexists; intros k; unfold main_body, io_bind at 1; rewrite Hb;
      unfold io_try, io_bind at 1; rewrite Hrr; reflexivity
     |left; eexists; intros k; unfold main_body, io_bind at 1; rewrite Hb;
      unfold io_try, io_bind at 1; rewrite Hrr; reflexivity].
  destruct (show_route_done lat1 lon1 lat2 lon2 rest)
    as (tc & mc & d & _ & _ & Hsr).
  destruct rest as [|[s|] rest'];
    [left | destruct (answers_yes s) eqn:Hyes; [right|left] | left];
    try (eexists; intros k; unfold main_body, io_bind at 1; rewrite Hb;
         unfold io_try, io_bind at 1; rewrite Hrr;
         unfold io_bind at 1; rewrite Hsr;
         unfold io_bind at 1, show at 1; unfold io_bind at 1, input;
         rewrite ?Hyes; reflexivity).
  exists rest'. split; [simpl in Hrest; lia|].
  assert (Hrun : exists G : list out * result unit -> list out * result unit,
            forall k : io unit, main_body float k stdin = G (k rest')).
  { eexists. intros k. unfold main_body, io_bind at 1. rewrite Hb.
    unfold io_try, io_bind at 1. rewrite Hrr.
    unfold io_bind at 1. rewrite Hsr.
    unfold io_bind at 1, show at 1. unfold io_bind at 1, input.
    rewrite Hyes. unfold io_bind at 1, say at 1.
    generalize (k rest'). intros p. reflexivity. }
  destruct Hrun as [G Hrun].
  intros k. now rewrite (Hrun k), (Hrun (fun _ => k rest')).
Qed.

Lemma main_loop_step (fuel : nat) :
  forall stdin : list event,
    (length stdin < fuel)%nat ->
    main_loop float (S fuel) stdin = main_loop float fuel stdin.
Proof.
  induction fuel as [|fuel IH]; intros stdin Hlen; [lia|].
  change (main_body float (main_loop float (S fuel)) stdin =
          main_body float (main_loop float fuel) stdin).
  destruct (main_body_depends stdin) as [[res H]|(rest & Hrest & H)].
  - now rewrite !H.
  - rewrite (H (main_loop float (S fuel))), (H (main_loop float fuel)).
    rewrite IH by lia. reflexivity.
Qed.

(** Any budget above the number of events gives the run of [main]. *)
Lemma main_loop_enough (fuel : nat) (stdin : list event) :
  (length stdin < fuel)%nat -> main_loop float fuel stdin = main float stdin.
Proof.
  unfold main. intros H.
  induction fuel as [|fuel IH]; [lia|].
  destruct (Nat.eq_dec fuel (length stdin)) as [->|Hne]; [reflexivity|].
  rewrite main_loop_step by lia. apply IH. lia.
Qed.

Lemma another_route_session (a b c d answer : string)
    (lat1 lon1 lat2 lon2 : R) (rest : list event) :
  float a = Some lat1 -> float b = Some lon1 ->
  float c = Some lat2 -> float d = Some lon2 ->
  accepted lat1 -> accepted lon1 -> accepted lat2 -> accepted lon2 ->
  answers_yes answer = true ->
  exists (first : list out) (true_course magnetic_course distance : R),
    main float (Typed a :: Typed b :: Typed c :: Typed d ::
                Typed answer :: rest) =
      (first ++ fst (main float rest), snd (main float rest)) /\
    returns (calculate_magnetic_course lat1 lon1 lat2 lon2)
            (true_course, magnetic_course) /\
    returns (calculate_distance lat1 lon1 lat2 lon2) distance /\
    In (Point "From" lat1 lon1) first /\
    In (Point "To" lat2 lon2) first /\
    In (Say (Field "Distance" distance)) first /\
    In (Say (Field "True Course" true_course)) first /\
    In (Say (Field "Magnetic Course" magnetic_course)) first.
Proof.
  intros Ha Hb Hc Hd A1 A2 A3 A4 Hyes.
  unfold main at 1. rewrite main_loop_S.
  unfold io_bind at 1.
  destruct (banner_done
              (Typed a :: Typed b :: Typed c :: Typed d :: Typed answer :: rest))
    as (ob & -> & _).
  unfold io_try, io_bind at 1. unfold read_route.
  unfold io_bind at 1, say at 1.
  unfold io_bind at 1. rewrite (get_coordinate_input_first _ _ _ _ _ Ha A1).
  unfold io_bind at 1. rewrite (get_coordinate_input_first _ _ _ _ _ Hb A2).
  unfold io_bind at 1, say at 1.
  unfold io_bind at 1. rewrite (get_coordinate_input_first _ _ _ _ _ Hc A3).
  unfold io_bind at 1. rewrite (get_coordinate_input_first _ _ _ _ _ Hd A4).
  unfold io_ret.
  unfold io_bind at 1.
  destruct (show_route_done lat1 lon1 lat2 lon2 (Typed answer :: rest))
    as (tc & mc & dist & Hm & Hdist & ->).
  unfold io_bind at 1, show at 1. unfold io_bind at 1, input.
  rewrite Hyes. unfold io_bind at 1, say at 1.
  rewrite main_loop_enough by (simpl; lia).
  destruct (main_loop_spec float (S (length rest)) rest ltac:(lia))
    as (o & r & Hmain & Hr & _).
  fold (main float rest) in Hmain. rewrite Hmain. simpl fst. simpl snd.
  exists (ob ++
          [Say (Text (nl ++ "📍 Starting Point (FROM):"));
           Ask "  Latitude:  "; Ask "  Longitude: ";
           Say (Text (nl ++ "📍 Destination Point (TO):"));
           Ask "  Latitude:  "; Ask "  Longitude: ";
           Say (Text (nl ++ string_mul "=" 50));
           Say (Text "📊 CALCULATION RESULTS");
           Say (Text (string_mul "=" 50));
           Point "From" lat1 lon1;
           Point "To" lat2 lon2;
           Say (Text (string_mul "-" 50));
           Say (Field "Distance" dist);
           Say (Field "True Course" tc);
           Say (Field "Magnetic Course" mc);
           Say (Field "Magnetic Var" MAGNETIC_VARIATION);
           Say (Text (string_mul "=" 50));
           Ask (nl ++ "📝 Calculate another route? (y/n): ");
           Say (Text nl)]), tc, mc, dist.
  split.
  - destruct r as [[] rest'|code|e rest'|]; simpl in Hr; try contradiction;
      f_equal; repeat rewrite <- app_assoc; reflexivity.
  - split; [assumption|]. split; [assumption|].
    repeat split; rewrite in_app_iff; right; simpl; tauto.
Qed.

(** X18: answering y (or anything that starts with y or Y) after a
    route starts [main] over on the input that is left: the session
    shows the first route and goes on exactly as [main] does on the rest
    of the input, and ends as it ends.  The input left is at most 1000
    lines long, which is fewer than 200 further routes and as many
    nested calls of [main], well within the depth of recursion that
    Python allows. *)
Theorem main_another_route (a b c d answer : string)
    (lat1 lon1 lat2 lon2 : R) (rest : list event) :
  float a = Some lat1 -> float b = Some lon1 ->
  float c = Some lat2 -> float d = Some lon2 ->
  accepted lat1 -> accepted lon1 -> accepted lat2 -> accepted lon2 ->
  answers_yes answer = true ->
  (length rest <= 1000)%nat ->
  exists (first : list out) (true_course magnetic_course distance : R),
    main float (Typed a :: Typed b :: Typed c :: Typed d ::
                Typed answer :: rest) =
      (first ++ fst (main float rest), snd (main float rest)) /\
    returns (calculate_magnetic_course lat1 lon1 lat2 lon2)
            (true_course, magnetic_course) /\
    returns (calculate_distance lat1 lon1 lat2 lon2) distance /\
    In (Point "From" lat1 lon1) first /\
    In (Point "To" lat2 lon2) first /\
    In (Say (Field "Distance" distance)) first /\
    In (Say (Field "True Course" true_course)) first /\
    In (Say (Field "Magnetic Course" magnetic_course)) first.
Proof.
  intros Ha Hb Hc Hd A1 A2 A3 A4 Hyes _. now apply another_route_session.
Qed.

End AnotherRoute.

Section AnotherRouteWitness.

Import MagneticCourseCalculator Console ConsoleTerms.

Lemma main_another_route_witness :
  (length [Console.Typed "999"] <= 1000)%nat /\
  exists (first : list out) (true_course magnetic_course distance : R),
    main sample_float
      [Typed "23.9739"; Typed "120.9820"; Typed "24.1477";
       Typed "120.6736"; Typed "yes"; Typed "999"] =
      (first ++ fst (main sample_float [Typed "999"]),
       snd (main sample_float [Typed "999"])) /\
    returns (calculate_magnetic_course (239739 / 10000) (120982 / 1000)
               (241477 / 10000) (1206736 / 10000))
            (true_course, magnetic_course) /\
    returns (calculate_distance (239739 / 10000) (120982 / 1000)
               (241477 / 10000) (1206736 / 10000)) distance /\
    In (Point "From" (239739 / 10000) (120982 / 1000)) first /\
    In (Point "To" (241477 / 10000) (1206736 / 10000)) first /\
    In (Say (Field "Distance" distance)) first /\
    In (Say (Field "True Course" true_course)) first /\
    In (Say (Field "Magnetic Course" magnetic_course)) first.
Proof.
  split; [simpl; lia|].
  apply (main_another_route sample_float
           "23.9739" "120.9820" "24.1477" "120.6736" "yes"
           (239739 / 10000) (120982 / 1000)
           (241477 / 10000) (1206736 / 10000) [Typed "999"]
           eq_refl eq_refl eq_refl eq_refl);
    try (apply accepted_below; lra); [reflexivity|simpl; lia].
Defined.

End AnotherRouteWitness.

(** ** The removal of waypoint items *)

Section Cleaning.

Import Cleaner.

#[local] Open Scope string_scope.

Example count_div :
  count "<div" "<div><div class=x></div>" = 2%nat /\
  count "</div>" "<div><div class=x></div>" = 1%nat /\
  count "aa" "aaaaa" = 2%nat /\
  contains waypoint_item ("<div " ++ waypoint_item ++ " active" ++ quote ++ ">")
    = true.
Proof. repeat split; reflexivity. Qed.

Lemma fold_step_scan (lines : list string) :
  forall st : state,
    new_lines (fold_left step lines st) =
    (new_lines st ++
     scan (in_waypoint_item st) (waypoint_item_depth st) lines)%list.
Proof.
  induction lines as [|line rest IH]; intros st; simpl.
  - now rewrite app_nil_r.
  - rewrite IH. unfold step.
    destruct (contains waypoint_item line); simpl; [reflexivity|].
    destruct (in_waypoint_item st) eqn:Hin; simpl.
    + destruct (Z.leb _ 0); reflexivity.
    + now rewrite <- app_assoc.
Qed.

Lemma clean_scan (lines : list string) : clean lines = scan false 0 lines.
Proof. unfold clean. now rewrite fold_step_scan. Qed.

Lemma scan_cons (inside : bool) (depth : Z) (line : string)
    (rest : list string) :
  scan inside depth (line :: rest) =
  if contains waypoint_item line then scan true 1 rest
  else if inside then
    if (depth + Z.of_nat (count "<div" line)
              - Z.of_nat (count "</div>" line) <=? 0)%Z
    then scan false 0 rest
    else scan true (depth + Z.of_nat (count "<div" line)
                          - Z.of_nat (count "</div>" line)) rest
  else line :: scan false depth rest.
Proof. reflexivity. Qed.

Lemma scan_kept (lines : list string) :
  forall (inside : bool) (depth : Z),
    kept_from (scan inside depth lines) lines /\
    Forall plain (scan inside depth lines).
Proof.
  induction lines as [|line rest IH]; intros inside depth; simpl.
  - split; constructor.
  - destruct (contains waypoint_item line) eqn:Hm.
    + destruct (IH true 1%Z). split; [now constructor|assumption].
    + destruct inside.
      * destruct (Z.leb _ 0).
        -- destruct (IH false 0%Z). split; [now constructor|assumption].
        -- match goal with
           | |- context [scan true ?d rest] => destruct (IH true d)
           end.
           split; [now constructor|assumption].
      * destruct (IH false depth). split; constructor; assumption.
Qed.

Lemma scan_plain (lines : list string) (depth : Z) :
  Forall plain lines -> scan false depth lines = lines.
Proof.
  induction 1 as [|line rest Hl _ IH]; simpl; [reflexivity|].
  unfold plain in Hl. rewrite Hl. now rewrite IH.
Qed.

Lemma scan_app_plain (pre rest : list string) (depth : Z) :
  Forall plain pre ->
  scan false depth (pre ++ rest) = (pre ++ scan false depth rest)%list.
Proof.
  induction 1 as [|line pre' Hl _ IH]; simpl; [reflexivity|].
  unfold plain in Hl. rewrite Hl. now rewrite IH.
Qed.

Lemma scan_unclosed (tail : list string) :
  Forall unclosing tail ->
  forall depth : Z, (0 < depth)%Z -> scan true depth tail = [].
Proof.
  induction 1 as [|line rest Hl _ IH]; intros depth Hd; simpl; [reflexivity|].
  destruct (contains waypoint_item line); [apply IH; lia|].
  unfold unclosing in Hl. rewrite Hl.
  destruct (Z.leb_spec (depth + Z.of_nat (count "<div" line) - Z.of_nat 0) 0);
    [lia|apply IH; lia].
Qed.

Lemma scan_inert (body rest : list string) (depth : Z) :
  Forall inert body ->
  (0 < depth)%Z ->
  scan true depth (body ++ rest) = scan true depth rest.
Proof.
  induction 1 as [|line body' (Hp & Ho & Hc) _ IH]; intros Hd; simpl;
    [reflexivity|].
  unfold plain in Hp. rewrite Hp, Ho, Hc.
  replace (depth + Z.of_nat 0 - Z.of_nat 0)%Z with depth by lia.
  destruct (Z.leb_spec depth 0); [lia|now apply IH].
Qed.

(** X19: the lines written are lines that were read, in the order they
    were read: the script adds no line, changes no line and moves no
    line; and none of the lines written contains the waypoint-item
    marker. *)
Theorem clean_keeps_plain_lines (lines : list string) :
  kept_from (clean lines) lines /\ Forall plain (clean lines).
Proof. rewrite clean_scan. apply scan_kept. Qed.

(** X20: a page on which no line contains the marker is written back
    as it was read. *)
Theorem clean_leaves_plain_page (lines : list string) :
  Forall plain lines -> clean lines = lines.
Proof. intros H. rewrite clean_scan. now apply scan_plain. Qed.

(** X21: running the script a second time changes nothing. *)
Theorem clean_idempotent (lines : list string) :
  clean (clean lines) = clean lines.
Proof.
  rewrite (clean_scan (clean lines)). apply scan_plain.
  rewrite clean_scan. apply scan_kept.
Qed.

(** X22: an item is removed up to its closing line, and the cleaning
    goes on after it.  After lines without marker, a marker line,
    followed by lines that neither open nor close a [div] and by a line
    that closes at least one more [div] than it opens, is dropped with
    them; what the marker line itself opens or closes is not counted. *)
Theorem clean_removes_item (pre body post : list string)
    (opening closing : string) :
  Forall plain pre -> contains waypoint_item opening = true ->
  Forall inert body -> plain closing ->
  (count "<div" closing < count "</div>" closing)%nat ->
  clean (pre ++ opening :: body ++ closing :: post) =
  (pre ++ clean post)%list.
Proof.
  intros Hpre Hop Hbody Hcl Hcount.
  rewrite !clean_scan, scan_app_plain by assumption.
  rewrite scan_cons, Hop, scan_inert by (assumption || lia).
  rewrite scan_cons. unfold plain in Hcl. rewrite Hcl.
  destruct (Z.leb_spec
              (1 + Z.of_nat (count "<div" closing)
                 - Z.of_nat (count "</div>" closing)) 0); [reflexivity|lia].
Qed.

(** X23: an item that is never closed takes the rest of the page with
    it: when no line after a marker line contains a closing [div] tag,
    everything from the marker line on is dropped. *)
Theorem clean_drops_unclosed_item (pre tail : list string) (opening : string) :
  Forall plain pre -> contains waypoint_item opening = true ->
  Forall unclosing tail ->
  clean (pre ++ opening :: tail) = pre.
Proof.
  intros Hpre Hop Htail.
  rewrite clean_scan, scan_app_plain by assumption.
  rewrite scan_cons, Hop, scan_unclosed by (assumption || lia).
  apply app_nil_r.
Qed.

Lemma clean_leaves_plain_page_witness :
  Forall plain ["<ul>"; "<li>A</li>"; "</ul>"] /\
  clean ["<ul>"; "<li>A</li>"; "</ul>"] = ["<ul>"; "<li>A</li>"; "</ul>"].
Proof.
  assert (H : Forall plain ["<ul>"; "<li>A</li>"; "</ul>"])
    by (repeat constructor).
  exact (conj H (clean_leaves_plain_page _ H)).
Defined.

Lemma clean_removes_item_witness :
  clean page = ["<ul>"; "</ul>"].
Proof.
  assert (Hpre : Forall plain ["<ul>"]) by (repeat constructor).
  assert (Hop : contains waypoint_item item_line = true) by reflexivity.
  assert (Hbody : Forall inert ["<span>A</span>"])
    by (repeat constructor).
  assert (Hcl : plain "</div>") by reflexivity.
  assert (Hcount : (count "<div" "</div>" < count "</div>" "</div>")%nat)
    by (vm_compute; lia).
  exact (clean_removes_item ["<ul>"] ["<span>A</span>"] ["</ul>"]
           item_line "</div>" Hpre Hop Hbody Hcl Hcount).
Defined.

Lemma clean_drops_unclosed_item_witness :
  clean broken_page = ["<ul>"].
Proof.
  assert (Hpre : Forall plain ["<ul>"]) by (repeat constructor).
  assert (Hop : contains waypoint_item item_line = true) by reflexivity.
  assert (Htail : Forall unclosing ["<span>A</span>"; "</ul>"])
    by (repeat constructor).
  exact (clean_drops_unclosed_item ["<ul>"] ["<span>A</span>"; "</ul>"]
           item_line Hpre Hop Htail).
Defined.

End Cleaning.
